(** * Asynchronous resume-generation jobs: the job entity, the broker
      publisher and the orchestrating service of woragis-jobs-service.

    The Go code is embedded as functions over an explicit [World] that holds
    everything the process shares with its environment: the [resume_jobs]
    table, the broker channel, the logger output, the clock and the random
    source behind [uuid.New].  Go's [(value, error)] results are kept as
    values: [None] is a nil error. *)

From stdpp Require Import base gmap strings list pretty.
From Stdlib Require Import ZArith NArith Ascii Lia.

Set Warnings "-register-all".
#[local] Open Scope N_scope.

(** ** github.com/google/uuid *)

(** A UUID is sixteen bytes; it is read here as the 128-bit big-endian
    number those bytes spell. *)
Abbreviation UUID := N (only parsing).

Module uuid.

Definition Nil : UUID := 0.

(** Bits cleared and then set by [NewRandom]:
    [uuid[6] = (uuid[6] & 0x0f) | 0x40] (version 4) and
    [uuid[8] = (uuid[8] & 0x3f) | 0x80] (variant 10). *)
Definition cleared_bits : N := N.lor (N.shiftl 0xf0 72) (N.shiftl 0xc0 56).
Definition version_bits : N := N.lor (N.shiftl 0x40 72) (N.shiftl 0x80 56).

(** [New] on sixteen random bytes [r]. *)
Definition New (r : N) : UUID :=
  N.lor (N.ldiff (r mod 2 ^ 128) cleared_bits) version_bits.

Definition hexdigit (n : N) : ascii :=
  match n with
  | 0 => "0" | 1 => "1" | 2 => "2" | 3 => "3" | 4 => "4" | 5 => "5"
  | 6 => "6" | 7 => "7" | 8 => "8" | 9 => "9" | 10 => "a" | 11 => "b"
  | 12 => "c" | 13 => "d" | 14 => "e" | _ => "f"
  end%char.

(** The [i]-th hexadecimal digit, counted from the most significant. *)
Definition nibble (u : UUID) (i : nat) : N :=
  N.land (N.shiftr u (4 * N.of_nat (31 - i))) 15.

Definition encodeHex (u : UUID) (from len : nat) : string :=
  String.string_of_list_ascii (map (fun i => hexdigit (nibble u i)) (seq from len)).

(** xxxxxxxx-xxxx-xxxx-xxxx-xxxxxxxxxxxx *)
Definition String (u : UUID) : string :=
  (encodeHex u 0 8 +:+ "-" +:+ encodeHex u 8 4 +:+ "-" +:+
   encodeHex u 12 4 +:+ "-" +:+ encodeHex u 16 4 +:+ "-" +:+
   encodeHex u 20 12)%string.

End uuid.

(** ** Values *)

(** What an [interface{}] of the metadata bag holds once a request body has
    been decoded; a JSON object is a finite map from keys to values. *)
Inductive json : Type :=
| JNull
| JBool (b : bool)
| JNumber (n : Z)
| JString (s : string)
| JArray (l : list json)
| JObject (m : gmap string json).

(** [type JSONMetadata map[string]interface{}] *)
Abbreviation JSONMetadata := (gmap string json) (only parsing).

Abbreviation Time := N (only parsing).

Inductive error : Type :=
| DuplicateID                                   (* JobStore: id already exists *)
| NotFound                                      (* JobStore: unknown id *)
| PersistenceError                              (* JobStore: store unreachable *)
| ErrClosed                                     (* amqp: channel is not open *)
| Errorf (msg : string) (wrapped : option error). (* fmt.Errorf, with %w *)

Inductive result (A : Type) : Type :=
| Ok (a : A)
| Err (e : error).
Arguments Ok {A} a.
Arguments Err {A} e.

(** ** The job entity (resume_job.go) *)

Inductive ResumeJobStatus : Type :=
| ResumeJobStatusPending
| ResumeJobStatusProcessing
| ResumeJobStatusCompleted
| ResumeJobStatusFailed
| ResumeJobStatusCancelled.

#[global] Instance ResumeJobStatus_eq_dec : EqDecision ResumeJobStatus.
Proof. solve_decision. Defined.

Record ResumeGenerationJob : Type := {
  ID : UUID;
  UserID : UUID;
  JobDescription : string;
  Status : ResumeJobStatus;
  Metadata : JSONMetadata;
  ErrorMessage : string;
  ErrorCode : string;
  ResumeID : option UUID;
  CreatedAt : Time;
  UpdatedAt : Time
}.

(** The message published for the resume worker (rabbitmq_publisher.go). *)
Module ResumeWorkerJob.
Record t : Type := {
  JobID : string;
  UserID : string;
  JobDescription : string;
  Metadata : JSONMetadata
}.
End ResumeWorkerJob.
Abbreviation ResumeWorkerJob := ResumeWorkerJob.t (only parsing).

(** ** The environment *)

Inductive Level : Type := LevelInfo | LevelWarn | LevelError.

Inductive attr : Type :=
| AString (s : string)
| AUUID (u : UUID)
| AError (e : error).

Record LogRecord : Type := {
  level : Level;
  message : string;
  attrs : list (string * attr)
}.

Inductive DeliveryMode : Type := Transient | Persistent.

Record Publishing : Type := {
  ContentType : string;
  Body : json;
  Delivery : DeliveryMode
}.

Record Envelope : Type := {
  exchange : string;
  routingKey : string;
  mandatory : bool;
  immediate : bool;
  publishing : Publishing
}.

(** The one amqp channel of the process: closed or open, and what it has
    accepted so far (most recent first). *)
Record Channel : Type := {
  closed : bool;
  accepted : list Envelope
}.

Record World : Type := {
  rows : gmap UUID ResumeGenerationJob;  (* table resume_jobs, by primary key *)
  outages : list bool;                   (* per store call to come: unreachable? *)
  broker : Channel;
  logs : list LogRecord;                 (* most recent first *)
  clock : Time;
  entropy : nat -> N;                    (* the random reader *)
  drawn : nat
}.

Definition set_rows (r : gmap UUID ResumeGenerationJob) (w : World) : World :=
  {| rows := r; outages := outages w; broker := broker w; logs := logs w;
     clock := clock w; entropy := entropy w; drawn := drawn w |}.

Definition set_outages (o : list bool) (w : World) : World :=
  {| rows := rows w; outages := o; broker := broker w; logs := logs w;
     clock := clock w; entropy := entropy w; drawn := drawn w |}.

Definition set_broker (b : Channel) (w : World) : World :=
  {| rows := rows w; outages := outages w; broker := b; logs := logs w;
     clock := clock w; entropy := entropy w; drawn := drawn w |}.

Definition set_logs (l : list LogRecord) (w : World) : World :=
  {| rows := rows w; outages := outages w; broker := broker w; logs := l;
     clock := clock w; entropy := entropy w; drawn := drawn w |}.

Definition set_clock (t : Time) (w : World) : World :=
  {| rows := rows w; outages := outages w; broker := broker w; logs := logs w;
     clock := t; entropy := entropy w; drawn := drawn w |}.

Definition set_drawn (n : nat) (w : World) : World :=
  {| rows := rows w; outages := outages w; broker := broker w; logs := logs w;
     clock := clock w; entropy := entropy w; drawn := n |}.

(** Computations that read and change the world. *)
Definition M (A : Type) : Type := World -> A * World.

Definition ret {A : Type} (a : A) : M A := fun w => (a, w).

Definition bind {A B : Type} (c : M A) (k : A -> M B) : M B :=
  fun w => let (a, w') := c w in k a w'.

Declare Scope go_scope.
Delimit Scope go_scope with go.
Notation "'let*' x := c 'in' k" := (bind c (fun x => k))
  (at level 10, x name, c at level 100, k at level 200) : go_scope.
Notation "c ;; k" := (bind c (fun _ => k))
  (at level 100, k at level 200, right associativity) : go_scope.
#[local] Open Scope go_scope.

(** [time.Now().UTC()]: the reading, after which the clock has moved on. *)
Definition time_Now : M Time :=
  fun w => (clock w, set_clock (N.succ (clock w)) w).

(** [uuid.New()] *)
Definition uuid_New : M UUID :=
  fun w => (uuid.New (entropy w (drawn w)), set_drawn (S (drawn w)) w).

(** [logger.Info / Warn / Error] *)
Definition slog (l : Level) (msg : string) (kv : list (string * attr)) : M unit :=
  fun w => (tt, set_logs ({| level := l; message := msg; attrs := kv |} :: logs w) w).

(** ** Constructors and transitions of the entity *)

Definition NewResumeGenerationJob (userID : UUID) (jobDescription : string)
    (metadata : JSONMetadata) : M ResumeGenerationJob :=
  let md := map_fold (fun k v (md : JSONMetadata) => <[k := v]> md) ∅ metadata in
  let* id := uuid_New in
  let* createdAt := time_Now in
  let* updatedAt := time_Now in
  ret {| ID := id; UserID := userID; JobDescription := jobDescription;
         Status := ResumeJobStatusPending; Metadata := md;
         ErrorMessage := ""; ErrorCode := ""; ResumeID := None;
         CreatedAt := createdAt; UpdatedAt := updatedAt |}.

Definition MarkProcessing (j : ResumeGenerationJob) : M ResumeGenerationJob :=
  let* now := time_Now in
  ret {| ID := ID j; UserID := UserID j; JobDescription := JobDescription j;
         Status := ResumeJobStatusProcessing; Metadata := Metadata j;
         ErrorMessage := ErrorMessage j; ErrorCode := ErrorCode j;
         ResumeID := ResumeID j; CreatedAt := CreatedAt j; UpdatedAt := now |}.

Definition MarkCompleted (j : ResumeGenerationJob) (resumeID : UUID)
    : M ResumeGenerationJob :=
  let* now := time_Now in
  ret {| ID := ID j; UserID := UserID j; JobDescription := JobDescription j;
         Status := ResumeJobStatusCompleted; Metadata := Metadata j;
         ErrorMessage := ""; ErrorCode := "";
         ResumeID := Some resumeID; CreatedAt := CreatedAt j; UpdatedAt := now |}.

Definition MarkFailed (j : ResumeGenerationJob) (errorMessage errorCode : string)
    : M ResumeGenerationJob :=
  let* now := time_Now in
  ret {| ID := ID j; UserID := UserID j; JobDescription := JobDescription j;
         Status := ResumeJobStatusFailed; Metadata := Metadata j;
         ErrorMessage := errorMessage; ErrorCode := errorCode;
         ResumeID := ResumeID j; CreatedAt := CreatedAt j; UpdatedAt := now |}.

Definition MarkCancelled (j : ResumeGenerationJob) : M ResumeGenerationJob :=
  let* now := time_Now in
  ret {| ID := ID j; UserID := UserID j; JobDescription := JobDescription j;
         Status := ResumeJobStatusCancelled; Metadata := Metadata j;
         ErrorMessage := ErrorMessage j; ErrorCode := ErrorCode j;
         ResumeID := ResumeID j; CreatedAt := CreatedAt j; UpdatedAt := now |}.

(** ** The job store (the repository behind [s.repo]) *)

(** Modelled from the spec: a store call can find the store unreachable
    (the spec's PersistenceError).  Each call consumes the next entry of the
    outage schedule; an exhausted schedule means no more outages. *)
Definition store_call : M bool :=
  fun w =>
    match outages w with
    | [] => (true, w)
    | down :: later => (negb down, set_outages later w)
    end.

(** Modelled from the spec: the repository implementation (gormRepository)
    is not among the sources.  [Create] persists a new job and fails with
    [DuplicateID] if the id already exists; an unreachable store gives a
    [PersistenceError] and creates nothing. *)
Definition CreateResumeGenerationJob (job : ResumeGenerationJob) : M (option error) :=
  let* up := store_call in
  if up then
    fun w =>
      match rows w !! ID job with
      | Some _ => (Some DuplicateID, w)
      | None => (None, set_rows (<[ID job := job]> (rows w)) w)
      end
  else ret (Some PersistenceError).

(** Modelled from the spec: the repository's [Get]; it fails with [NotFound]
    if the id is absent.  The service hands it the job id alone. *)
Definition GetResumeGenerationJob (jobID : UUID) : M (result ResumeGenerationJob) :=
  let* up := store_call in
  if up then
    fun w =>
      match rows w !! jobID with
      | Some job => (Ok job, w)
      | None => (Err NotFound, w)
      end
  else ret (Err PersistenceError).

(** Modelled from the spec: the repository's [Update]; a full-record
    replace that fails with [NotFound] if the id is unknown. *)
Definition UpdateResumeGenerationJob (job : ResumeGenerationJob) : M (option error) :=
  let* up := store_call in
  if up then
    fun w =>
      match rows w !! ID job with
      | Some _ => (None, set_rows (<[ID job := job]> (rows w)) w)
      | None => (Some NotFound, w)
      end
  else ret (Some PersistenceError).

(** ** The publisher (rabbitmq_publisher.go) *)

Definition resumeExchange : string := "woragis.tasks".
Definition resumeQueue : string := "resumes.queue".
Definition resumeRoutingKey : string := "resumes.generate".

(** [json.Marshal] of a [ResumeWorkerJob]: one member per struct field,
    named by its [json] tag.  The body is kept as the JSON value, not as
    its text. *)
Definition json_Marshal (job : ResumeWorkerJob) : result json :=
  Ok (JObject
        (<["jobId" := JString (ResumeWorkerJob.JobID job)]>
        (<["userId" := JString (ResumeWorkerJob.UserID job)]>
        (<["jobDescription" := JString (ResumeWorkerJob.JobDescription job)]>
        (<["metadata" := JObject (ResumeWorkerJob.Metadata job)]> ∅))))).

(** [channel.PublishWithContext]: a closed channel refuses, an open one
    takes the message. *)
Definition PublishWithContext (exch key : string) (mand immed : bool)
    (msg : Publishing) : M (option error) :=
  fun w =>
    if closed (broker w) then (Some ErrClosed, w)
    else
      let e := {| exchange := exch; routingKey := key; mandatory := mand;
                  immediate := immed; publishing := msg |} in
      (None, set_broker {| closed := false; accepted := e :: accepted (broker w) |} w).

(** [channel.Close] *)
Definition channel_Close : M (option error) :=
  fun w =>
    if closed (broker w) then (Some ErrClosed, w)
    else (None, set_broker {| closed := true; accepted := accepted (broker w) |} w).

(** [type RabbitMQPublisher interface] *)
Class RabbitMQPublisher (P : Type) : Type := {
  PublishResumeGenerationJob : P -> ResumeWorkerJob -> M (option error);
  Close : P -> M (option error)
}.

(** The implementations hold a channel and a logger only: publishing leaves
    the job store alone. *)
Class PublisherFrame (P : Type) `{RabbitMQPublisher P} : Prop := {
  publish_rows : forall (p : P) job w,
    rows (PublishResumeGenerationJob p job w).2 = rows w;
  publish_outages : forall (p : P) job w,
    outages (PublishResumeGenerationJob p job w).2 = outages w
}.

Inductive ChannelRef : Type := TheChannel.

Record rabbitMQPublisher : Type := {
  channel : option ChannelRef          (* nil or the process's channel *)
}.

Definition rabbitMQPublisher_Publish (p : rabbitMQPublisher)
    (job : ResumeWorkerJob) : M (option error) :=
  match channel p with
  | None => ret (Some (Errorf "channel is not available" None))
  | Some _ =>
    match json_Marshal job with
    | Err err => ret (Some (Errorf "failed to marshal job" (Some err)))
    | Ok body =>
      let* err := PublishWithContext resumeExchange resumeRoutingKey false false
                    {| ContentType := "application/json"; Body := body;
                       Delivery := Persistent |} in
      match err with
      | Some err =>
        slog LevelError "failed to publish job"
          [("jobId", AString (ResumeWorkerJob.JobID job)); ("error", AError err)] ;;
        ret (Some (Errorf "failed to publish job" (Some err)))
      | None =>
        slog LevelInfo "resume generation job published"
          [("jobId", AString (ResumeWorkerJob.JobID job));
           ("userId", AString (ResumeWorkerJob.UserID job))] ;;
        ret None
      end
    end
  end.

Definition rabbitMQPublisher_Close (p : rabbitMQPublisher) : M (option error) :=
  match channel p with
  | Some _ => channel_Close
  | None => ret None
  end.

Record noOpPublisher : Type := {}.

(** The record the no-op publisher logs for an item. *)
Definition dropped_warning (item : ResumeWorkerJob) : LogRecord :=
  {| level := LevelWarn;
     message := "RabbitMQ publisher is not available, job will not be queued";
     attrs := [("jobId", AString (ResumeWorkerJob.JobID item));
               ("userId", AString (ResumeWorkerJob.UserID item))] |}.

Definition noOpPublisher_Publish (p : noOpPublisher) (job : ResumeWorkerJob)
    : M (option error) :=
  slog LevelWarn "RabbitMQ publisher is not available, job will not be queued"
    [("jobId", AString (ResumeWorkerJob.JobID job));
     ("userId", AString (ResumeWorkerJob.UserID job))] ;;
  ret None.

Definition noOpPublisher_Close (p : noOpPublisher) : M (option error) := ret None.

#[global] Instance rabbitMQPublisher_impl : RabbitMQPublisher rabbitMQPublisher := {
  PublishResumeGenerationJob := rabbitMQPublisher_Publish;
  Close := rabbitMQPublisher_Close
}.

#[global] Instance noOpPublisher_impl : RabbitMQPublisher noOpPublisher := {
  PublishResumeGenerationJob := noOpPublisher_Publish;
  Close := noOpPublisher_Close
}.

(** ** The service (service.go) *)

(** [type service struct]: the repository and the logger live in the
    world, the publisher is whichever implementation was injected. *)
Record service (P : Type) : Type := {
  publisher : P
}.
Arguments publisher {P} s.

Definition NewService {P : Type} (publisher : P) : service P :=
  {| publisher := publisher |}.

(** The [ResumeWorkerJob] literal that [GenerateResume] builds from the
    persisted job before publishing. *)
Definition workerJob (job : ResumeGenerationJob) : ResumeWorkerJob :=
  {| ResumeWorkerJob.JobID := uuid.String (ID job);
     ResumeWorkerJob.UserID := uuid.String (UserID job);
     ResumeWorkerJob.JobDescription := JobDescription job;
     ResumeWorkerJob.Metadata := Metadata job |}.

Section Service.

Context {P : Type} `{RabbitMQPublisher P}.

Definition GenerateResume (s : service P) (userID : UUID)
    (jobDescription : string) (metadata : JSONMetadata)
    : M (UUID * option error) :=
  let* job := NewResumeGenerationJob userID jobDescription metadata in
  let* err := CreateResumeGenerationJob job in
  match err with
  | Some err =>
    slog LevelError "failed to create resume generation job"
      [("error", AError err); ("userId", AUUID userID)] ;;
    ret (uuid.Nil, Some err)
  | None =>
    let workerJob := workerJob job in
    let* err := PublishResumeGenerationJob (publisher s) workerJob in
    match err with
    | Some err =>
      slog LevelError "failed to publish resume generation job"
        [("error", AError err); ("jobId", AUUID (ID job))] ;;
      let* job := MarkFailed job "Failed to queue job for processing" "QUEUE_ERROR" in
      let* _ := UpdateResumeGenerationJob job in
      ret (uuid.Nil, Some err)
    | None =>
      slog LevelInfo "resume generation job created and queued"
        [("jobId", AUUID (ID job)); ("userId", AUUID userID)] ;;
      ret (ID job, None)
    end
  end.

Definition GetResumeGenerationJobStatus (s : service P) (jobID : UUID)
    : M (result ResumeGenerationJob) :=
  let* r := GetResumeGenerationJob jobID in
  match r with
  | Err err =>
    slog LevelError "failed to get resume generation job status"
      [("error", AError err); ("jobId", AUUID jobID)] ;;
    ret (Err err)
  | Ok job => ret (Ok job)
  end.

Definition CompleteResumeGeneration (s : service P) (jobID resumeID : UUID)
    : M (option error) :=
  let* r := GetResumeGenerationJob jobID in
  match r with
  | Err err =>
    slog LevelError "failed to get resume generation job"
      [("error", AError err); ("jobId", AUUID jobID)] ;;
    ret (Some err)
  | Ok job =>
    let* job := MarkCompleted job resumeID in
    let* err := UpdateResumeGenerationJob job in
    match err with
    | Some err =>
      slog LevelError "failed to update resume generation job"
        [("error", AError err); ("jobId", AUUID jobID)] ;;
      ret (Some err)
    | None =>
      slog LevelInfo "resume generation job completed"
        [("jobId", AUUID jobID); ("resumeId", AUUID resumeID)] ;;
      ret None
    end
  end.

Definition FailResumeGeneration (s : service P) (jobID : UUID)
    (errorMessage : string) : M (option error) :=
  let* r := GetResumeGenerationJob jobID in
  match r with
  | Err err =>
    slog LevelError "failed to get resume generation job"
      [("error", AError err); ("jobId", AUUID jobID)] ;;
    ret (Some err)
  | Ok job =>
    let* job := MarkFailed job errorMessage "GENERATION_ERROR" in
    let* err := UpdateResumeGenerationJob job in
    match err with
    | Some err =>
      slog LevelError "failed to update resume generation job"
        [("error", AError err); ("jobId", AUUID jobID)] ;;
      ret (Some err)
    | None =>
      slog LevelInfo "resume generation job failed"
        [("jobId", AUUID jobID); ("error", AString errorMessage)] ;;
      ret None
    end
  end.

End Service.

(** ** The state machine, as the operations drive it *)

Definition is_terminal (st : ResumeJobStatus) : bool :=
  match st with
  | ResumeJobStatusCompleted | ResumeJobStatusFailed | ResumeJobStatusCancelled => true
  | ResumeJobStatusPending | ResumeJobStatusProcessing => false
  end.

(** [ResumeID != nil] *)
Definition resultRef_set (j : ResumeGenerationJob) : bool :=
  match ResumeID j with Some _ => true | None => false end.

(** Error information is carried by two strings; it is absent when both
    are empty. *)
Definition errorInfo_set (j : ResumeGenerationJob) : bool :=
  negb (String.eqb (ErrorMessage j) "" && String.eqb (ErrorCode j) "").

(** What the core does to a job record after its creation. *)
Inductive operation : Type :=
| OpComplete (resumeID : UUID)      (* CompleteResumeGeneration *)
| OpFail (errorMessage : string)    (* FailResumeGeneration *)
| OpQueueError                      (* GenerateResume, when the publish failed *)
| OpMarkProcessing
| OpMarkCancelled.

Definition apply_operation (op : operation) (j : ResumeGenerationJob)
    : M ResumeGenerationJob :=
  match op with
  | OpComplete resumeID => MarkCompleted j resumeID
  | OpFail errorMessage => MarkFailed j errorMessage "GENERATION_ERROR"
  | OpQueueError => MarkFailed j "Failed to queue job for processing" "QUEUE_ERROR"
  | OpMarkProcessing => MarkProcessing j
  | OpMarkCancelled => MarkCancelled j
  end.

Definition target (op : operation) : ResumeJobStatus :=
  match op with
  | OpComplete _ => ResumeJobStatusCompleted
  | OpFail _ | OpQueueError => ResumeJobStatusFailed
  | OpMarkProcessing => ResumeJobStatusProcessing
  | OpMarkCancelled => ResumeJobStatusCancelled
  end.

(** Job records reachable by any sequence of operations. *)
Inductive reachable : ResumeGenerationJob -> Prop :=
| reach_new userID jobDescription metadata w :
    reachable (NewResumeGenerationJob userID jobDescription metadata w).1
| reach_step op j w :
    reachable j -> reachable (apply_operation op j w).1.

(** Job records reachable when every operation finds its job not yet in a
    terminal state. *)
Inductive reachable_forward : ResumeGenerationJob -> Prop :=
| forward_new userID jobDescription metadata w :
    reachable_forward (NewResumeGenerationJob userID jobDescription metadata w).1
| forward_step op j w :
    reachable_forward j -> is_terminal (Status j) = false ->
    reachable_forward (apply_operation op j w).1.

(** The shape of a record in each state. *)
Definition status_shape (j : ResumeGenerationJob) : Prop :=
  match Status j with
  | ResumeJobStatusCompleted => resultRef_set j = true /\ errorInfo_set j = false
  | ResumeJobStatusFailed => resultRef_set j = false /\ errorInfo_set j = true
  | ResumeJobStatusPending | ResumeJobStatusProcessing | ResumeJobStatusCancelled =>
    resultRef_set j = false /\ errorInfo_set j = false
  end.

(** The next store call reaches the store. *)
Definition store_up (w : World) : Prop := head (outages w) <> Some true.

(** The next [n] store calls reach the store. *)
Definition store_up_for (n : nat) (w : World) : Prop :=
  true ∉ take n (outages w).

(** ** Sample worlds *)

Definition quiet_world : World :=
  {| rows := ∅; outages := []; broker := {| closed := false; accepted := [] |};
     logs := []; clock := 1000; entropy := fun n => 1 + N.of_nat n; drawn := 0 |}.

(** The broker is gone and the store drops out after the first call. *)
Definition flaky_world : World :=
  {| rows := ∅; outages := [false; true];
     broker := {| closed := true; accepted := [] |};
     logs := []; clock := 1000; entropy := fun n => 1 + N.of_nat n; drawn := 0 |}.

(** The broker is gone, the store is not. *)
Definition broker_down_world : World :=
  {| rows := ∅; outages := [];
     broker := {| closed := true; accepted := [] |};
     logs := []; clock := 1000; entropy := fun n => 1 + N.of_nat n; drawn := 0 |}.

Definition sample_metadata : JSONMetadata := {[ "lang" := JString "en" ]}.

Definition amqp_service : service rabbitMQPublisher :=
  NewService {| channel := Some TheChannel |}.

Definition noop_service : service noOpPublisher :=
  NewService (Build_noOpPublisher).

(** Submitting "Senior Go Engineer" for user 7 in a given world, with the
    steps of the submission laid out. *)
Definition submit {P : Type} `{RabbitMQPublisher P} (s : service P) (w : World)
    : (UUID * option error) * World :=
  GenerateResume s 7 "Senior Go Engineer" sample_metadata w.

Definition submit_new (w : World) : ResumeGenerationJob * World :=
  NewResumeGenerationJob 7 "Senior Go Engineer" sample_metadata w.

Definition submit_created (w : World) : option error * World :=
  CreateResumeGenerationJob (submit_new w).1 (submit_new w).2.

Definition submit_published {P : Type} `{RabbitMQPublisher P} (s : service P)
    (w : World) : option error * World :=
  PublishResumeGenerationJob (publisher s) (workerJob (submit_new w).1)
    (submit_created w).2.

(** The worker reports a failure for the submitted job, and then a success. *)
Definition after_submit : World := (submit noop_service quiet_world).2.

Definition after_fail : World :=
  (FailResumeGeneration noop_service (uuid.New 1) "template render error"
     after_submit).2.

Definition after_fail_then_complete : World :=
  (CompleteResumeGeneration noop_service (uuid.New 1) 99 after_fail).2.

(** The failed job, as it is stored. *)
Definition failed_job : ResumeGenerationJob :=
  default (submit_new quiet_world).1 (rows after_fail !! uuid.New 1).

(** The submitted job, cancelled while Pending, and completed while Pending. *)
Definition cancelled_job : ResumeGenerationJob :=
  (apply_operation OpMarkCancelled (submit_new quiet_world).1 quiet_world).1.

Definition completed_job : ResumeGenerationJob :=
  (apply_operation (OpComplete 99) (submit_new quiet_world).1 quiet_world).1.

(** * The rest of the code *)

(** Where the [i]-th hexadecimal digit stands in the text form of a UUID,
    past the dashes before it. *)
Definition digit_position (i : nat) : nat :=
  (i + (if 8 <=? i then 1 else 0) + (if 12 <=? i then 1 else 0) +
   (if 16 <=? i then 1 else 0) + (if 20 <=? i then 1 else 0))%nat.

(** ** Calls on the service, one after another *)

(** Every row sits under its own id, as a table with [id] as primary key
    has it. *)
Definition store_keyed (w : World) : Prop :=
  forall id j, rows w !! id = Some j -> ID j = id.

(** [j'] is the job [j], possibly further along: same id, owner, payload
    and creation time. *)
Definition same_job (j j' : ResumeGenerationJob) : Prop :=
  ID j' = ID j /\ UserID j' = UserID j /\
  JobDescription j' = JobDescription j /\ Metadata j' = Metadata j /\
  CreatedAt j' = CreatedAt j.

(** The calls of the [Service] interface that deal with generation jobs and
    act on a single job. *)
Inductive call : Type :=
| CallGenerateResume (userID : UUID) (jobDescription : string)
    (metadata : gmap string json)
| CallGetStatus (jobID : UUID)
| CallComplete (jobID resumeID : UUID)
| CallFail (jobID : UUID) (errorMessage : string).

Definition perform {P : Type} `{RabbitMQPublisher P} (s : service P)
    (c : call) (w : World) : World :=
  match c with
  | CallGenerateResume userID jobDescription metadata =>
    (GenerateResume s userID jobDescription metadata w).2
  | CallGetStatus jobID => (GetResumeGenerationJobStatus s jobID w).2
  | CallComplete jobID resumeID => (CompleteResumeGeneration s jobID resumeID w).2
  | CallFail jobID errorMessage => (FailResumeGeneration s jobID errorMessage w).2
  end.

(** The id of the job a call is about; for a submission, the id the new
    job is going to get. *)
Definition subject (c : call) (w : World) : UUID :=
  match c with
  | CallGenerateResume _ _ _ => uuid.New (entropy w (drawn w))
  | CallGetStatus jobID | CallComplete jobID _ | CallFail jobID _ => jobID
  end.

Definition perform_all {P : Type} `{RabbitMQPublisher P} (s : service P)
    (cs : list call) (w : World) : World :=
  fold_left (fun w c => perform s c w) cs w.

(** ** Choosing the publisher (rabbitmq_publisher.go, routes.go) *)

(** The topology calls of [*amqp.Channel]; how the broker answers them is
    left open. *)
Class TopologyCalls : Type := {
  ExchangeDeclare :
    forall (name kind : string) (durable autoDelete internal noWait : bool),
      M (option error);
  QueueDeclare :
    forall (name : string) (durable autoDelete exclusive noWait : bool),
      M (option error);
  QueueBind :
    forall (name key exch : string) (noWait : bool), M (option error)
}.

Definition NewRabbitMQPublisher `{TopologyCalls} (ch : ChannelRef)
    : M (result rabbitMQPublisher) :=
  let* err := ExchangeDeclare resumeExchange "direct" true false false false in
  match err with
  | Some err => ret (Err (Errorf "failed to declare exchange" (Some err)))
  | None =>
    let* err := QueueDeclare resumeQueue true false false false in
    match err with
    | Some err => ret (Err (Errorf "failed to declare queue" (Some err)))
    | None =>
      let* err := QueueBind resumeQueue resumeRoutingKey resumeExchange false in
      match err with
      | Some err => ret (Err (Errorf "failed to bind queue" (Some err)))
      | None => ret (Ok {| channel := Some ch |})
      end
    end
  end.

Definition NewNoOpPublisher : noOpPublisher := Build_noOpPublisher.

(** A value of the interface type [RabbitMQPublisher]: one of the two
    implementations. *)
Inductive publisherValue : Type :=
| ViaRabbitMQ (p : rabbitMQPublisher)
| ViaNoOp (p : noOpPublisher).

#[global] Instance publisherValue_impl : RabbitMQPublisher publisherValue := {
  PublishResumeGenerationJob v :=
    match v with
    | ViaRabbitMQ p => PublishResumeGenerationJob p
    | ViaNoOp p => PublishResumeGenerationJob p
    end;
  Close v :=
    match v with
    | ViaRabbitMQ p => Close p
    | ViaNoOp p => Close p
    end
}.

(** [database.RabbitMQConnection], as [NewRabbitMQ] builds it. *)
Record RabbitMQConnection : Type := {
  conn_Channel : ChannelRef
}.

(** The part of [SetupRoutes] that picks the publisher for the resume
    service; [rabbitMQ] is [dbManager.GetRabbitMQ()]. *)
Definition resumePublisher `{TopologyCalls}
    (rabbitMQ : option RabbitMQConnection) : M publisherValue :=
  match rabbitMQ with
  | Some conn =>
    let* r := NewRabbitMQPublisher (conn_Channel conn) in
    match r with
    | Err err =>
      slog LevelWarn "failed to initialize RabbitMQ publisher"
        [("error", AError err)] ;;
      ret (ViaNoOp NewNoOpPublisher)
    | Ok p =>
      slog LevelInfo "RabbitMQ publisher initialized successfully" [] ;;
      ret (ViaRabbitMQ p)
    end
  | None =>
    slog LevelWarn "RabbitMQ connection not available, using no-op publisher" [] ;;
    ret (ViaNoOp NewNoOpPublisher)
  end.

(** A broker that takes every declaration, and one that refuses queues. *)
Definition willing_broker : TopologyCalls := {|
  ExchangeDeclare _ _ _ _ _ _ := ret None;
  QueueDeclare _ _ _ _ _ := ret None;
  QueueBind _ _ _ _ := ret None
|}.

Definition refusing_broker : TopologyCalls := {|
  ExchangeDeclare _ _ _ _ _ _ := ret None;
  QueueDeclare _ _ _ _ _ := ret (Some ErrClosed);
  QueueBind _ _ _ _ := ret None
|}.

(** ** Storing the metadata bag (resume_job.go) *)

(** A Go map value: nil, or a map. *)
Abbreviation GoMetadata := (option (gmap string json)) (only parsing).

(** [driver.Value] *)
Inductive driver_Value : Type :=
| DNil
| DInt64 (n : Z)
| DFloat64 (bits : N)
| DBool (b : bool)
| DBytes (b : string)
| DString (s : string)
| DTime (t : Time).

(** How a call ends: it returns, or it panics. *)
Inductive outcome (A : Type) : Type :=
| Returns (a : A)
| Panics.
Arguments Returns {A} a.
Arguments Panics {A}.

Section MetadataColumn.

(** [json.Marshal] of a map to its text and [json.Unmarshal] of a text
    into the map a pointer holds. *)
Variable marshal : gmap string json -> result string.
Variable unmarshal : string -> GoMetadata -> GoMetadata * option error.

(** [func (j JSONMetadata) Value() (driver.Value, error)] *)
Definition JSONMetadata_Value (j : GoMetadata) : result driver_Value :=
  match j with
  | None => Ok DNil
  | Some m =>
    match marshal m with
    | Ok text => Ok (DBytes text)
    | Err e => Err e
    end
  end.

(** [func (j *JSONMetadata) Scan(value interface{}) error]: the map the
    receiver holds afterwards, and the error. *)
Definition JSONMetadata_Scan (j : GoMetadata) (value : driver_Value)
    : outcome (GoMetadata * option error) :=
  match value with
  | DNil => Returns (Some ∅, None)
  | DBytes bytes => Returns (unmarshal bytes j)
  | DString s => Returns (unmarshal s j)
  | DInt64 _ | DFloat64 _ | DBool _ | DTime _ => Panics
  end.

End MetadataColumn.

(** ** Migrations (migration.go) *)

Inductive statement : Type :=
| Exec (sql : string)
| AutoMigrate (models : list string).

(** The database as the migration sees it: the statements it has taken,
    oldest first, and whether it refuses a statement given those. *)
Record gormDB : Type := {
  taken : list statement;
  refuses : list statement -> statement -> option error
}.

Definition db_run (st : statement) (db : gormDB) : option error * gormDB :=
  match refuses db (taken db) st with
  | Some err => (Some err, db)
  | None => (None, {| taken := taken db ++ [st]; refuses := refuses db |})
  end.

Definition quoted (s : string) : string :=
  String "034" s +:+ String "034" "".

Definition enable_uuid_ossp : statement :=
  Exec ("CREATE EXTENSION IF NOT EXISTS " +:+ quoted "uuid-ossp").
Definition enable_pgcrypto : statement :=
  Exec ("CREATE EXTENSION IF NOT EXISTS " +:+ quoted "pgcrypto").
Definition migrate_jobapplications : statement :=
  AutoMigrate ["jobapplications.JobApplication"].
Definition migrate_resumes : statement :=
  AutoMigrate ["resumes.Resume"; "resumes.ResumeGenerationJob"].
Definition migrate_jobwebsites : statement :=
  AutoMigrate ["jobwebsites.JobWebsite"].
Definition migrate_subdomains : statement :=
  AutoMigrate ["responses.Response"; "interviewstages.InterviewStage"].

Definition MigrateJobsTables (db : gormDB) : option error * gormDB :=
  match db_run enable_uuid_ossp db with
  | (Some err, db) => (Some err, db)
  | (None, db) =>
  match db_run enable_pgcrypto db with
  | (Some err, db) => (Some err, db)
  | (None, db) =>
  match db_run migrate_jobapplications db with
  | (Some err, db) => (Some err, db)
  | (None, db) =>
  match db_run migrate_resumes db with
  | (Some err, db) => (Some err, db)
  | (None, db) =>
  match db_run migrate_jobwebsites db with
  | (Some err, db) => (Some err, db)
  | (None, db) =>
  match db_run migrate_subdomains db with
  | (Some err, db) => (Some err, db)
  | (None, db) => (None, db)
  end end end end end end.

(** The statements of the migration, in the order it issues them. *)
Definition migration_plan : list statement :=
  [enable_uuid_ossp; enable_pgcrypto; migrate_jobapplications;
   migrate_resumes; migrate_jobwebsites; migrate_subdomains].

(** Issue statements until one is refused. *)
Fixpoint run_plan (plan : list statement) (db : gormDB) : option error * gormDB :=
  match plan with
  | [] => (None, db)
  | st :: rest =>
    match db_run st db with
    | (Some err, db) => (Some err, db)
    | (None, db) => run_plan rest db
    end
  end.

(** A database that lacks the privilege to create extension pgcrypto. *)
Definition restricted_db : gormDB :=
  {| taken := [];
     refuses _ st :=
       match st with
       | Exec sql =>
         if String.eqb sql ("CREATE EXTENSION IF NOT EXISTS " +:+ quoted "pgcrypto")
         then Some (Errorf "permission denied to create extension" None)
         else None
       | AutoMigrate _ => None
       end |}.

Definition fresh_db : gormDB := {| taken := []; refuses _ _ := None |}.

(** ** The best resume (service.go) *)

Section BestResume.

(** The resume entity and the three repository calls [GetBestResume] makes
    are not among the sources; they are taken as given. *)
Variable Resume : Type.
Variable GetMainResume : UUID -> M (result Resume).
Variable GetFeaturedResume : UUID -> M (result Resume).
Variable ListResumes : UUID -> M (result (list Resume)).
(** [NewDomainError(ErrCodeNotFound, ErrResumeNotFound)] *)
Variable ErrResumeNotFound : error.

Definition GetBestResume (userID : UUID) : M (result Resume) :=
  let* r := GetMainResume userID in
  match r with
  | Ok resume => ret (Ok resume)
  | Err _ =>
    let* r := GetFeaturedResume userID in
    match r with
    | Ok resume => ret (Ok resume)
    | Err _ =>
      let* r := ListResumes userID in
      match r with
      | Err err => ret (Err err)
      | Ok resumes =>
        match resumes with
        | [] => ret (Err ErrResumeNotFound)
        | first :: _ => ret (Ok first)
        end
      end
    end
  end.

End BestResume.

(** ** The cover letter prompt (cover_letter_generator.go) *)

Module jobapplications.

Definition LF : string := String "010" "".

(** [strings.Join] *)
Fixpoint strings_Join (elems : list string) (sep : string) : string :=
  match elems with
  | [] => ""
  | e :: rest =>
    match rest with
    | [] => e
    | _ :: _ => e +:+ sep +:+ strings_Join rest sep
    end
  end.

(** The fields of [JobInfo] that the prompt uses. *)
Record JobInfo : Type := {
  CompanyName : string;
  JobTitle : string;
  Location : string;
  JobDescription : string;
  Requirements : list string
}.

Section Prompt.

(** What the profile lists, beyond words. *)
Variables Project Post TechnicalWriting : Type.

(** The fields of [UserProfile] that the prompt uses. *)
Record UserProfile : Type := {
  Skills : list string;
  Certifications : list string;
  Interests : list string;
  Projects : list Project;
  Posts : list Post;
  TechnicalWritings : list TechnicalWriting
}.

Definition nonempty (s : string) : bool := negb (String.eqb s "").

Definition has_items {A : Type} (l : list A) : bool := Nat.ltb 0 (length l).

(** The [parts] slice of [buildUserInput] as it stands before the join. *)
Definition buildUserInput_parts (profile : UserProfile) (job : JobInfo)
    (additionalContext : string) : list string :=
  let parts : list string := [] in
  let parts := parts ++ ["## Job Application Details"] in
  let parts := parts ++ ["Company: " +:+ CompanyName job] in
  let parts := parts ++ ["Position: " +:+ JobTitle job] in
  let parts :=
    if nonempty (Location job)
    then parts ++ ["Location: " +:+ Location job] else parts in
  let parts :=
    if nonempty (JobDescription job)
    then parts ++ ["Job Description:" +:+ LF +:+ JobDescription job] else parts in
  let parts :=
    if has_items (Requirements job)
    then parts ++ ["Key Requirements:" +:+ LF +:+ "- " +:+
                   strings_Join (Requirements job) (LF +:+ "- ")]
    else parts in
  let parts := parts ++ [LF +:+ "## Candidate Profile"] in
  let parts :=
    if has_items (Skills profile)
    then parts ++ ["Skills: " +:+ strings_Join (Skills profile) ", "] else parts in
  let parts :=
    if has_items (Certifications profile)
    then parts ++ ["Certifications: " +:+
                   strings_Join (Certifications profile) ", "]
    else parts in
  let parts :=
    if has_items (Interests profile)
    then parts ++ ["Interests: " +:+ strings_Join (Interests profile) ", "]
    else parts in
  let parts :=
    if has_items (Projects profile)
    then parts ++ ["Projects: " +:+ pretty (length (Projects profile)) +:+
                   " relevant projects"]
    else parts in
  let parts :=
    if has_items (Posts profile)
    then parts ++ ["Posts/Publications: " +:+ pretty (length (Posts profile)) +:+
                   " items"]
    else parts in
  let parts :=
    if has_items (TechnicalWritings profile)
    then parts ++ ["Technical Writings: " +:+
                   pretty (length (TechnicalWritings profile)) +:+ " items"]
    else parts in
  let parts :=
    if nonempty additionalContext
    then (parts ++ [LF +:+ "## Additional Context"]) ++ [additionalContext]
    else parts in
  let parts := parts ++ [LF +:+ "## Instructions"] in
  let parts := parts ++ ["Please write a compelling, personalized cover letter for this job application. Make it specific, professional, and engaging."] in
  parts.

Definition buildUserInput (profile : UserProfile) (job : JobInfo)
    (additionalContext : string) : string :=
  strings_Join (buildUserInput_parts profile job additionalContext) LF.

(** How many of the optional entries a request brings. *)
Definition optional_parts (profile : UserProfile) (job : JobInfo)
    (additionalContext : string) : nat :=
  (if nonempty (Location job) then 1 else 0) +
  (if nonempty (JobDescription job) then 1 else 0) +
  (if has_items (Requirements job) then 1 else 0) +
  (if has_items (Skills profile) then 1 else 0) +
  (if has_items (Certifications profile) then 1 else 0) +
  (if has_items (Interests profile) then 1 else 0) +
  (if has_items (Projects profile) then 1 else 0) +
  (if has_items (Posts profile) then 1 else 0) +
  (if has_items (TechnicalWritings profile) then 1 else 0) +
  (if nonempty additionalContext then 2 else 0).

End Prompt.

Arguments Skills {_ _ _} _.
Arguments Certifications {_ _ _} _.
Arguments Interests {_ _ _} _.
Arguments Projects {_ _ _} _.
Arguments Posts {_ _ _} _.
Arguments TechnicalWritings {_ _ _} _.
Arguments buildUserInput_parts {_ _ _} _ _ _.
Arguments buildUserInput {_ _ _} _ _ _.
Arguments optional_parts {_ _ _} _ _ _.

End jobapplications.

(** * Properties *)

(** ** The identifier and the metadata copy *)

Lemma New_not_Nil (r : N) : uuid.New r <> uuid.Nil.
Proof.
  intros Heq.
  assert (Hbit : N.testbit (uuid.New r) 63 = true).
  { unfold uuid.New. rewrite N.lor_spec.
    replace (N.testbit uuid.version_bits 63) with true by reflexivity.
    apply orb_true_r. }
  rewrite Heq in Hbit. discriminate Hbit.
Qed.

Lemma metadata_copy (metadata : gmap string json) :
  map_fold (fun k v (md : gmap string json) => <[k := v]> md) ∅ metadata = metadata.
Proof.
  apply (map_fold_weak_ind (fun (r : gmap string json) m => r = m)).
  - reflexivity.
  - intros k v m r _ ->. reflexivity.
Qed.

Lemma NewResumeGenerationJob_run userID jobDescription metadata w :
  NewResumeGenerationJob userID jobDescription metadata w =
  ({| ID := uuid.New (entropy w (drawn w)); UserID := userID;
      JobDescription := jobDescription; Status := ResumeJobStatusPending;
      Metadata := metadata; ErrorMessage := ""; ErrorCode := "";
      ResumeID := None; CreatedAt := clock w; UpdatedAt := N.succ (clock w) |},
   set_clock (N.succ (N.succ (clock w))) (set_drawn (S (drawn w)) w)).
Proof.
  unfold NewResumeGenerationJob. rewrite metadata_copy. reflexivity.
Qed.

(** ** The store *)

Lemma store_call_up w :
  store_up w -> store_call w = (true, set_outages (tail (outages w)) w).
Proof.
  unfold store_up, store_call. destruct w as [r o b l c e d]; simpl.
  destruct o as [|[] o]; simpl; intros Hup; try reflexivity.
  contradiction Hup; reflexivity.
Qed.

Lemma store_call_down w :
  ~ store_up w -> store_call w = (false, set_outages (tail (outages w)) w).
Proof.
  unfold store_up, store_call. destruct w as [r o b l c e d]; simpl.
  destruct o as [|[] o]; simpl; intros Hdown; try reflexivity.
  - contradiction Hdown. discriminate.
  - contradiction Hdown. discriminate.
Qed.

Lemma store_up_dec w : store_up w \/ ~ store_up w.
Proof.
  unfold store_up. destruct (head (outages w)) as [[]|]; [right|left|left];
    congruence.
Qed.

Lemma Create_accepted job w w' :
  CreateResumeGenerationJob job w = (None, w') ->
  rows w' = <[ID job := job]> (rows w) /\ outages w' = tail (outages w) /\
  broker w' = broker w /\ logs w' = logs w.
Proof.
  unfold CreateResumeGenerationJob, bind.
  destruct (store_up_dec w) as [Hup|Hdown].
  - rewrite (store_call_up w Hup). simpl.
    destruct (rows w !! ID job); intros [= <-]. simpl. auto.
  - rewrite (store_call_down w Hdown). unfold ret. discriminate.
Qed.

Lemma Create_failed job w e w' :
  CreateResumeGenerationJob job w = (Some e, w') ->
  e = DuplicateID \/ e = PersistenceError.
Proof.
  unfold CreateResumeGenerationJob, bind.
  destruct (store_call w) as [[] w0].
  - destruct (rows w0 !! ID job); intros [= <- _]. auto.
  - unfold ret. intros [= <- _]. auto.
Qed.

Lemma Create_fresh job w :
  store_up w -> rows w !! ID job = None ->
  (CreateResumeGenerationJob job w).1 = None.
Proof.
  intros Hup Hfresh. unfold CreateResumeGenerationJob, bind.
  rewrite (store_call_up w Hup). simpl. rewrite Hfresh. reflexivity.
Qed.

Lemma Update_accepted job w :
  store_up w -> is_Some (rows w !! ID job) ->
  exists w', UpdateResumeGenerationJob job w = (None, w') /\
    rows w' = <[ID job := job]> (rows w) /\ outages w' = tail (outages w) /\
    broker w' = broker w /\ logs w' = logs w.
Proof.
  intros Hup [old Hold]. unfold UpdateResumeGenerationJob, bind.
  rewrite (store_call_up w Hup). simpl. rewrite Hold.
  eexists. split; [reflexivity|]. simpl. auto.
Qed.

Lemma Get_found jobID job w :
  store_up w -> rows w !! jobID = Some job ->
  GetResumeGenerationJob jobID w = (Ok job, set_outages (tail (outages w)) w).
Proof.
  intros Hup Hjob. unfold GetResumeGenerationJob, bind.
  rewrite (store_call_up w Hup). simpl. rewrite Hjob. reflexivity.
Qed.

Lemma Get_missing jobID w :
  store_up w -> rows w !! jobID = None ->
  GetResumeGenerationJob jobID w = (Err NotFound, set_outages (tail (outages w)) w).
Proof.
  intros Hup Hjob. unfold GetResumeGenerationJob, bind.
  rewrite (store_call_up w Hup). simpl. rewrite Hjob. reflexivity.
Qed.

(** ** The publishers *)

#[global] Instance rabbitMQPublisher_frame : PublisherFrame rabbitMQPublisher.
Proof.
  split; intros [[c|]] job w; simpl;
    unfold rabbitMQPublisher_Publish, PublishWithContext, bind; simpl;
    try reflexivity; destruct (closed (broker w)); reflexivity.
Qed.

#[global] Instance noOpPublisher_frame : PublisherFrame noOpPublisher.
Proof. split; intros p job w; reflexivity. Qed.

(** ** Submitting a job *)

Section Submit.

Context {P : Type} `{PublisherFrame P}.
Variables (s : service P) (userID : UUID) (jobDescription : string).
Variable metadata : gmap string json.

(** The three ways through [GenerateResume]. *)

Lemma GenerateResume_create_failed w job w1 e w2 :
  NewResumeGenerationJob userID jobDescription metadata w = (job, w1) ->
  CreateResumeGenerationJob job w1 = (Some e, w2) ->
  (GenerateResume s userID jobDescription metadata w).1 = (uuid.Nil, Some e).
Proof.
  intros HNew HCreate. unfold GenerateResume, bind.
  rewrite HNew. cbv beta iota. rewrite HCreate. reflexivity.
Qed.

Lemma GenerateResume_queued w job w1 w2 w3 :
  NewResumeGenerationJob userID jobDescription metadata w = (job, w1) ->
  CreateResumeGenerationJob job w1 = (None, w2) ->
  PublishResumeGenerationJob (publisher s) (workerJob job) w2 = (None, w3) ->
  GenerateResume s userID jobDescription metadata w =
  ((ID job, None),
   set_logs ({| level := LevelInfo;
                message := "resume generation job created and queued";
                attrs := [("jobId", AUUID (ID job)); ("userId", AUUID userID)] |}
             :: logs w3) w3).
Proof.
  intros HNew HCreate HPublish. unfold GenerateResume, bind.
  rewrite HNew. cbv beta iota. rewrite HCreate. cbv beta iota zeta.
  rewrite HPublish. reflexivity.
Qed.

Lemma GenerateResume_publish_failed w job w1 w2 e w3 :
  NewResumeGenerationJob userID jobDescription metadata w = (job, w1) ->
  CreateResumeGenerationJob job w1 = (None, w2) ->
  PublishResumeGenerationJob (publisher s) (workerJob job) w2 = (Some e, w3) ->
  exists failed w4,
    MarkFailed job "Failed to queue job for processing" "QUEUE_ERROR"
      (set_logs ({| level := LevelError;
                    message := "failed to publish resume generation job";
                    attrs := [("error", AError e); ("jobId", AUUID (ID job))] |}
                 :: logs w3) w3) = (failed, w4) /\
    outages w4 = outages w2 /\ rows w4 = <[ID job := job]> (rows w1) /\
    GenerateResume s userID jobDescription metadata w =
    ((uuid.Nil, Some e), (UpdateResumeGenerationJob failed w4).2).
Proof.
  intros HNew HCreate HPublish.
  pose proof (publish_rows (publisher s) (workerJob job) w2) as Hrows.
  pose proof (publish_outages (publisher s) (workerJob job) w2) as Hout.
  rewrite HPublish in Hrows, Hout. simpl in Hrows, Hout.
  destruct (Create_accepted _ _ _ HCreate) as (Hrows2 & _).
  eexists _, _. split; [reflexivity|]. simpl.
  split; [exact Hout|]. split; [congruence|].
  unfold GenerateResume, bind.
  rewrite HNew. cbv beta iota. rewrite HCreate. cbv beta iota zeta.
  rewrite HPublish. simpl.
  destruct (UpdateResumeGenerationJob _ _). reflexivity.
Qed.

(** A submission that returns no error has stored what was submitted. *)
Lemma submit_success_stored w id w' :
  GenerateResume s userID jobDescription metadata w = ((id, None), w') ->
  exists j,
    rows w' !! id = Some j /\ ID j = id /\
    Status j = ResumeJobStatusPending /\ UserID j = userID /\
    JobDescription j = jobDescription /\ Metadata j = metadata /\
    ResumeID j = None /\ ErrorMessage j = "" /\ ErrorCode j = "" /\
    (store_up w' -> (GetResumeGenerationJobStatus s id w').1 = Ok j).
Proof.
  intros Hrun.
  destruct (NewResumeGenerationJob userID jobDescription metadata w)
    as [job w1] eqn:HNew.
  destruct (CreateResumeGenerationJob job w1) as [[e|] w2] eqn:HCreate.
  { pose proof (GenerateResume_create_failed _ _ _ _ _ HNew HCreate) as Hf.
    rewrite Hrun in Hf. discriminate Hf. }
  destruct (PublishResumeGenerationJob (publisher s) (workerJob job) w2)
    as [[e|] w3] eqn:HPublish.
  { destruct (GenerateResume_publish_failed _ _ _ _ _ _ HNew HCreate HPublish)
      as (? & ? & _ & _ & _ & Hf).
    rewrite Hrun in Hf. discriminate Hf. }
  rewrite (GenerateResume_queued _ _ _ _ _ HNew HCreate HPublish) in Hrun.
  injection Hrun as <- <-.
  pose proof (publish_rows (publisher s) (workerJob job) w2) as Hrows.
  rewrite HPublish in Hrows. simpl in Hrows.
  destruct (Create_accepted _ _ _ HCreate) as (Hrows2 & _).
  assert (Hstored : rows w3 !! ID job = Some job).
  { rewrite Hrows, Hrows2. apply lookup_insert_eq. }
  rewrite NewResumeGenerationJob_run in HNew. injection HNew as <- <-.
  eexists. split; [exact Hstored|]. simpl.
  repeat (split; [reflexivity|]).
  intros Hup. unfold GetResumeGenerationJobStatus, bind.
  erewrite Get_found; [reflexivity| exact Hup | exact Hstored].
Qed.

(** C3.  When the store takes the new job and the publisher succeeds,
    [GenerateResume] returns the job's id and no error, and the record
    stored under that id is Pending, carries the submitted owner,
    description and metadata, and has no result reference and no error
    fields; a status query that reaches the store returns that record. *)
Theorem submitted_job_is_pending w job w1 w2 w3 :
  NewResumeGenerationJob userID jobDescription metadata w = (job, w1) ->
  CreateResumeGenerationJob job w1 = (None, w2) ->
  PublishResumeGenerationJob (publisher s) (workerJob job) w2 = (None, w3) ->
  let run := GenerateResume s userID jobDescription metadata w in
  run.1 = (ID job, None) /\
  exists j,
    rows run.2 !! ID job = Some j /\ ID j = ID job /\
    Status j = ResumeJobStatusPending /\ UserID j = userID /\
    JobDescription j = jobDescription /\ Metadata j = metadata /\
    ResumeID j = None /\ ErrorMessage j = "" /\ ErrorCode j = "" /\
    (store_up run.2 ->
     (GetResumeGenerationJobStatus s (ID job) run.2).1 = Ok j).
Proof.
  intros HNew HCreate HPublish run.
  pose proof (GenerateResume_queued _ _ _ _ _ HNew HCreate HPublish) as Hrun.
  subst run. split; [rewrite Hrun; reflexivity|].
  apply (submit_success_stored w). rewrite Hrun. reflexivity.
Qed.

(** The record left in the store when the publish has failed. *)
Lemma publish_failure_outcome w job w1 w2 e w3 :
  NewResumeGenerationJob userID jobDescription metadata w = (job, w1) ->
  CreateResumeGenerationJob job w1 = (None, w2) ->
  PublishResumeGenerationJob (publisher s) (workerJob job) w2 = (Some e, w3) ->
  let run := GenerateResume s userID jobDescription metadata w in
  run.1 = (uuid.Nil, Some e) /\
  (store_up w3 ->
   rows run.2 !! ID job =
   Some {| ID := ID job; UserID := UserID job;
           JobDescription := JobDescription job;
           Status := ResumeJobStatusFailed; Metadata := Metadata job;
           ErrorMessage := "Failed to queue job for processing";
           ErrorCode := "QUEUE_ERROR"; ResumeID := ResumeID job;
           CreatedAt := CreatedAt job; UpdatedAt := clock w3 |}) /\
  (~ store_up w3 -> rows run.2 !! ID job = Some job).
Proof.
  intros HNew HCreate HPublish run.
  destruct (GenerateResume_publish_failed _ _ _ _ _ _ HNew HCreate HPublish)
    as (failed & w4 & HMark & Hout & Hrows & Hrun).
  subst run. rewrite Hrun. simpl.
  injection HMark as <- <-.
  split; [reflexivity|]. split.
  - intros Hup.
    match goal with |- context [UpdateResumeGenerationJob ?j ?w0] =>
      destruct (Update_accepted j w0) as (w5 & -> & Hrows5 & _)
    end.
    + unfold store_up in *. simpl. exact Hup.
    + simpl. simpl in Hrows. rewrite Hrows. rewrite lookup_insert_eq. eauto.
    + simpl. rewrite Hrows5. simpl. apply lookup_insert_eq.
  - intros Hdown.
    unfold UpdateResumeGenerationJob, bind.
    rewrite store_call_down by (unfold store_up in *; simpl; exact Hdown).
    simpl. simpl in Hrows. rewrite Hrows. apply lookup_insert_eq.
Qed.

(** C1, as amended.  When the store has taken the new job and the publish
    fails, [GenerateResume] returns the nil id with the publisher's error.
    It then writes the job back as Failed with code QUEUE_ERROR and drops
    that write's error: if the write reaches the store the stored record
    is Failed / QUEUE_ERROR, and if it does not the record stays as it was
    created, Pending. *)
Theorem publish_failure_marks_job_failed w job w1 w2 e w3 :
  NewResumeGenerationJob userID jobDescription metadata w = (job, w1) ->
  CreateResumeGenerationJob job w1 = (None, w2) ->
  PublishResumeGenerationJob (publisher s) (workerJob job) w2 = (Some e, w3) ->
  let run := GenerateResume s userID jobDescription metadata w in
  run.1 = (uuid.Nil, Some e) /\
  (store_up w3 ->
   exists j, rows run.2 !! ID job = Some j /\
     Status j = ResumeJobStatusFailed /\ ErrorCode j = "QUEUE_ERROR" /\
     ErrorMessage j = "Failed to queue job for processing" /\
     ID j = ID job /\ UserID j = userID /\
     JobDescription j = jobDescription /\ Metadata j = metadata) /\
  (~ store_up w3 ->
   exists j, rows run.2 !! ID job = Some j /\
     Status j = ResumeJobStatusPending /\ ErrorCode j = "").
Proof.
  intros HNew HCreate HPublish run.
  destruct (publish_failure_outcome w job w1 w2 e w3 HNew HCreate HPublish)
    as (Hret & Hup & Hdown).
  rewrite NewResumeGenerationJob_run in HNew. injection HNew as Hjob _.
  split; [exact Hret|]. split.
  - intros Hu. eexists. split; [exact (Hup Hu)|].
    rewrite <- Hjob. simpl. repeat split.
  - intros Hd. exists job. split; [exact (Hdown Hd)|].
    rewrite <- Hjob. simpl. split; reflexivity.
Qed.

(** C10, as amended.  Whenever [GenerateResume] returns an error, the id
    it returns is the nil UUID.  If the store had taken the job (so that
    the error is the publisher's), a record exists in the store under the
    job's own id, which is not the id returned, and that record is Failed
    with code QUEUE_ERROR when the write-back reached the store. *)
Theorem error_returns_nil_uuid w id e :
  (GenerateResume s userID jobDescription metadata w).1 = (id, Some e) ->
  id = uuid.Nil /\
  forall job w1 w2,
    NewResumeGenerationJob userID jobDescription metadata w = (job, w1) ->
    CreateResumeGenerationJob job w1 = (None, w2) ->
    ID job <> id /\
    exists j,
      rows (GenerateResume s userID jobDescription metadata w).2 !! ID job = Some j /\
      ID j = ID job /\
      (store_up w2 -> Status j = ResumeJobStatusFailed /\ ErrorCode j = "QUEUE_ERROR").
Proof.
  intros Hrun.
  destruct (NewResumeGenerationJob userID jobDescription metadata w)
    as [job w1] eqn:HNew.
  destruct (CreateResumeGenerationJob job w1) as [[e1|] w2] eqn:HCreate.
  { rewrite (GenerateResume_create_failed _ _ _ _ _ HNew HCreate) in Hrun.
    injection Hrun as <- <-. split; [reflexivity|].
    intros job' w1' w2' [= <- <-] HCreate'. congruence. }
  destruct (PublishResumeGenerationJob (publisher s) (workerJob job) w2)
    as [[e1|] w3] eqn:HPublish.
  2:{ rewrite (GenerateResume_queued _ _ _ _ _ HNew HCreate HPublish) in Hrun.
      discriminate Hrun. }
  destruct (publish_failure_outcome w job w1 w2 e1 w3 HNew HCreate HPublish)
    as (Hret & Hup & Hdown).
  rewrite Hret in Hrun. injection Hrun as <- <-. split; [reflexivity|].
  intros job' w1' w2' [= <- <-] HCreate'.
  rewrite HCreate in HCreate'. injection HCreate' as <-.
  split.
  { rewrite NewResumeGenerationJob_run in HNew. injection HNew as <- _.
    simpl. apply New_not_Nil. }
  pose proof (publish_outages (publisher s) (workerJob job) w2) as Hout3.
  rewrite HPublish in Hout3. simpl in Hout3.
  destruct (store_up_dec w3) as [Hu|Hd].
  - eexists. split; [exact (Hup Hu)|]. simpl. auto.
  - exists job. split; [exact (Hdown Hd)|]. split; [reflexivity|].
    intros Hu. contradiction Hd. unfold store_up in *. congruence.
Qed.

End Submit.

Lemma submitted_job_is_pending_witness :
  (submit noop_service quiet_world).1 = (ID (submit_new quiet_world).1, None) /\
  exists j,
    rows (submit noop_service quiet_world).2 !! ID (submit_new quiet_world).1
      = Some j /\
    ID j = ID (submit_new quiet_world).1 /\
    Status j = ResumeJobStatusPending /\ UserID j = 7 /\
    JobDescription j = "Senior Go Engineer" /\ Metadata j = sample_metadata /\
    ResumeID j = None /\ ErrorMessage j = "" /\ ErrorCode j = "" /\
    (store_up (submit noop_service quiet_world).2 ->
     (GetResumeGenerationJobStatus noop_service (ID (submit_new quiet_world).1)
        (submit noop_service quiet_world).2).1 = Ok j).
Proof.
  apply (submitted_job_is_pending noop_service 7 "Senior Go Engineer"
           sample_metadata quiet_world (submit_new quiet_world).1
           (submit_new quiet_world).2 (submit_created quiet_world).2
           (submit_published noop_service quiet_world).2).
  - vm_compute. reflexivity.
  - vm_compute. reflexivity.
  - vm_compute. reflexivity.
Defined.

(** C1, as stated, fails: the store takes the job, the publish fails, the
    store is unreachable for the write-back, and the job is left Pending. *)
Lemma publish_failure_can_leave_job_pending :
  (submit_created flaky_world).1 = None /\
  (submit_published amqp_service flaky_world).1 =
    Some (Errorf "failed to publish job" (Some ErrClosed)) /\
  (submit amqp_service flaky_world).1 =
    (uuid.Nil, Some (Errorf "failed to publish job" (Some ErrClosed))) /\
  Status <$> rows (submit amqp_service flaky_world).2
               !! ID (submit_new flaky_world).1 =
    Some ResumeJobStatusPending.
Proof. vm_compute. repeat split; reflexivity. Qed.

Lemma publish_failure_marks_job_failed_witness :
  (submit amqp_service broker_down_world).1 =
    (uuid.Nil, Some (Errorf "failed to publish job" (Some ErrClosed))) /\
  exists j,
    rows (submit amqp_service broker_down_world).2 !! uuid.New 1 = Some j /\
    Status j = ResumeJobStatusFailed /\ ErrorCode j = "QUEUE_ERROR".
Proof.
  destruct (publish_failure_marks_job_failed amqp_service 7 "Senior Go Engineer"
              sample_metadata broker_down_world
              (submit_new broker_down_world).1
              (submit_new broker_down_world).2
              (submit_created broker_down_world).2
              (Errorf "failed to publish job" (Some ErrClosed))
              (submit_published amqp_service broker_down_world).2)
    as (Hret & Hup & _).
  - vm_compute. reflexivity.
  - vm_compute. reflexivity.
  - vm_compute. reflexivity.
  - split; [exact Hret|].
    destruct Hup as (j & Hj & Hst & Hcode & _).
    + vm_compute. discriminate.
    + exists j. auto.
Defined.

(** C10, as stated, fails in its last part: after this publish failure the
    call returns the nil id with an error, and the store holds no Failed
    record, only the Pending one. *)
Lemma publish_failure_without_failed_record :
  (submit_created flaky_world).1 = None /\
  (submit amqp_service flaky_world).1 =
    (uuid.Nil, Some (Errorf "failed to publish job" (Some ErrClosed))) /\
  forall id j,
    rows (submit amqp_service flaky_world).2 !! id = Some j ->
    Status j = ResumeJobStatusPending.
Proof.
  split; [vm_compute; reflexivity|]. split; [vm_compute; reflexivity|].
  intros id j.
  replace (rows (submit amqp_service flaky_world).2)
    with ({[ uuid.New 1 := (submit_new flaky_world).1 ]}
          : gmap N ResumeGenerationJob)
    by (vm_compute; reflexivity).
  intros [_ <-]%lookup_singleton_Some. reflexivity.
Qed.

Lemma error_returns_nil_uuid_witness :
  uuid.Nil = uuid.Nil /\
  forall job w1 w2,
    NewResumeGenerationJob 7 "Senior Go Engineer" sample_metadata broker_down_world
      = (job, w1) ->
    CreateResumeGenerationJob job w1 = (None, w2) ->
    ID job <> uuid.Nil /\
    exists j,
      rows (GenerateResume amqp_service 7 "Senior Go Engineer" sample_metadata
              broker_down_world).2 !! ID job = Some j /\
      ID j = ID job /\
      (store_up w2 -> Status j = ResumeJobStatusFailed /\ ErrorCode j = "QUEUE_ERROR").
Proof.
  apply (error_returns_nil_uuid amqp_service 7 "Senior Go Engineer"
           sample_metadata broker_down_world uuid.Nil
           (Errorf "failed to publish job" (Some ErrClosed))).
  vm_compute. reflexivity.
Defined.

(** ** The message on the wire *)

Lemma json_Marshal_workerJob job :
  json_Marshal (workerJob job) =
  Ok (JObject
        (<["jobId" := JString (uuid.String (ID job))]>
        (<["userId" := JString (uuid.String (UserID job))]>
        (<["jobDescription" := JString (JobDescription job)]>
        (<["metadata" := JObject (Metadata job)]> ∅))))).
Proof. reflexivity. Qed.

Lemma rabbitMQPublisher_Publish_open p item w :
  channel p = Some TheChannel -> closed (broker w) = false ->
  exists body,
    json_Marshal item = Ok body /\
    PublishResumeGenerationJob p item w =
    (None,
     set_logs ({| level := LevelInfo; message := "resume generation job published";
                  attrs := [("jobId", AString (ResumeWorkerJob.JobID item));
                            ("userId", AString (ResumeWorkerJob.UserID item))] |}
               :: logs w)
       (set_broker
          {| closed := false;
             accepted :=
               {| exchange := resumeExchange; routingKey := resumeRoutingKey;
                  mandatory := false; immediate := false;
                  publishing := {| ContentType := "application/json";
                                   Body := body; Delivery := Persistent |} |}
               :: accepted (broker w) |} w)).
Proof.
  intros Hchan Hopen. eexists. split; [reflexivity|].
  change (PublishResumeGenerationJob p item w)
    with (rabbitMQPublisher_Publish p item w).
  unfold rabbitMQPublisher_Publish. rewrite Hchan.
  unfold json_Marshal, PublishWithContext, bind. rewrite Hopen. reflexivity.
Qed.

(** C8, as amended.  The message that [GenerateResume] hands to the
    publisher, as the broker receives it from the RabbitMQ publisher, is a
    persistent JSON message whose object has exactly the members jobId,
    userId, jobDescription and metadata; their values are the job's id and
    owner in text form, its description and its metadata bag as they are at
    publish time. *)
Theorem worker_message_fields (s : service rabbitMQPublisher) (userID : UUID)
    (jobDescription : string) (metadata : gmap string json) w job w1 w2 :
  NewResumeGenerationJob userID jobDescription metadata w = (job, w1) ->
  CreateResumeGenerationJob job w1 = (None, w2) ->
  channel (publisher s) = Some TheChannel ->
  closed (broker w) = false ->
  exists m : gmap string json,
    json_Marshal (workerJob job) = Ok (JObject m) /\
    accepted (broker (GenerateResume s userID jobDescription metadata w).2) =
      {| exchange := resumeExchange; routingKey := resumeRoutingKey;
         mandatory := false; immediate := false;
         publishing := {| ContentType := "application/json";
                          Body := JObject m; Delivery := Persistent |} |}
      :: accepted (broker w) /\
    dom m = {[ "jobId"; "userId"; "jobDescription"; "metadata" ]} /\
    m !! "jobId" = Some (JString (uuid.String (ID job))) /\
    m !! "userId" = Some (JString (uuid.String userID)) /\
    m !! "jobDescription" = Some (JString jobDescription) /\
    m !! "metadata" = Some (JObject metadata).
Proof.
  intros HNew HCreate Hchan Hopen.
  destruct (Create_accepted _ _ _ HCreate) as (_ & _ & Hbroker2 & _).
  assert (Hbroker1 : broker w1 = broker w).
  { rewrite NewResumeGenerationJob_run in HNew. injection HNew as _ <-.
    reflexivity. }
  assert (Hopen2 : closed (broker w2) = false) by congruence.
  destruct (rabbitMQPublisher_Publish_open (publisher s) (workerJob job) w2
              Hchan Hopen2) as (body & Hbody & HPublish).
  rewrite json_Marshal_workerJob in Hbody. injection Hbody as <-.
  eexists. split; [apply json_Marshal_workerJob|].
  split.
  { rewrite (GenerateResume_queued s userID jobDescription metadata
               w job w1 w2 _ HNew HCreate HPublish).
    simpl. rewrite Hbroker2, Hbroker1. reflexivity. }
  rewrite NewResumeGenerationJob_run in HNew. injection HNew as <- _. simpl.
  split.
  { rewrite !dom_insert_L, dom_empty_L. set_solver. }
  repeat split; simplify_map_eq; reflexivity.
Qed.

Lemma worker_message_fields_witness :
  exists m : gmap string json,
    json_Marshal (workerJob (submit_new quiet_world).1) = Ok (JObject m) /\
    accepted (broker (submit amqp_service quiet_world).2) =
      {| exchange := resumeExchange; routingKey := resumeRoutingKey;
         mandatory := false; immediate := false;
         publishing := {| ContentType := "application/json";
                          Body := JObject m; Delivery := Persistent |} |}
      :: accepted (broker quiet_world) /\
    dom m = {[ "jobId"; "userId"; "jobDescription"; "metadata" ]} /\
    m !! "jobId" = Some (JString (uuid.String (ID (submit_new quiet_world).1))) /\
    m !! "userId" = Some (JString (uuid.String 7)) /\
    m !! "jobDescription" = Some (JString "Senior Go Engineer") /\
    m !! "metadata" = Some (JObject sample_metadata).
Proof.
  apply (worker_message_fields amqp_service 7 "Senior Go Engineer"
           sample_metadata quiet_world (submit_new quiet_world).1
           (submit_new quiet_world).2 (submit_created quiet_world).2).
  - vm_compute. reflexivity.
  - vm_compute. reflexivity.
  - reflexivity.
  - reflexivity.
Defined.

(** C8, as stated, fails: the object that reaches the broker has no member
    called ownerId or description; the owner and the text travel under
    userId and jobDescription. *)
Lemma worker_message_has_no_ownerId_member :
  exists m : gmap string json,
    (fun e => Body (publishing e)) <$>
      head (accepted (broker (submit amqp_service quiet_world).2)) =
      Some (JObject m) /\
    m !! "ownerId" = None /\ m !! "description" = None /\
    m !! "userId" = Some (JString "00000000-0000-0000-0000-000000000007") /\
    m !! "jobDescription" = Some (JString "Senior Go Engineer").
Proof. eexists. vm_compute. repeat split; reflexivity. Qed.

(** ** The no-op publisher *)

Lemma noOpPublisher_Publish_run (p : noOpPublisher) item w :
  PublishResumeGenerationJob p item w =
  (None, set_logs (dropped_warning item :: logs w) w).
Proof. reflexivity. Qed.

(** With the no-op publisher, an error of [GenerateResume] is always the
    store's. *)
Lemma noop_submit_error_is_store_error (s : service noOpPublisher) userID
    jobDescription metadata w e :
  (GenerateResume s userID jobDescription metadata w).1.2 = Some e ->
  e = DuplicateID \/ e = PersistenceError.
Proof.
  destruct (NewResumeGenerationJob userID jobDescription metadata w)
    as [job w1] eqn:HNew.
  destruct (CreateResumeGenerationJob job w1) as [[e1|] w2] eqn:HCreate.
  - rewrite (GenerateResume_create_failed _ _ _ _ _ _ _ _ _ HNew HCreate).
    intros [= <-]. exact (Create_failed _ _ _ _ HCreate).
  - rewrite (GenerateResume_queued s userID jobDescription metadata
               w job w1 w2 _ HNew HCreate (noOpPublisher_Publish_run _ _ _)).
    discriminate.
Qed.

(** C9.  The no-op publisher returns success for every item and logs a
    warning that the item will not be queued, handing nothing to the
    broker.  So once the store has taken the job, [GenerateResume] returns
    the new job's id and no error; the job is stored Pending, the warning
    is in the log, and the broker has received nothing. *)
Theorem noop_publisher_submit_succeeds (s : service noOpPublisher)
    (userID : UUID) (jobDescription : string) (metadata : gmap string json)
    (item : ResumeWorkerJob) (w0 w : World) job w1 w2 :
  NewResumeGenerationJob userID jobDescription metadata w = (job, w1) ->
  CreateResumeGenerationJob job w1 = (None, w2) ->
  let published := PublishResumeGenerationJob (publisher s) item w0 in
  let run := GenerateResume s userID jobDescription metadata w in
  published.1 = None /\
  logs published.2 = dropped_warning item :: logs w0 /\
  broker published.2 = broker w0 /\
  run.1 = (ID job, None) /\
  rows run.2 !! ID job = Some job /\
  Status job = ResumeJobStatusPending /\
  dropped_warning (workerJob job) ∈ logs run.2 /\
  broker run.2 = broker w.
Proof.
  intros HNew HCreate published run.
  split; [reflexivity|]. split; [reflexivity|]. split; [reflexivity|].
  subst run.
  rewrite (GenerateResume_queued s userID jobDescription metadata
             w job w1 w2 _ HNew HCreate (noOpPublisher_Publish_run _ _ _)).
  destruct (Create_accepted _ _ _ HCreate) as (Hrows2 & _ & Hbroker2 & _).
  rewrite NewResumeGenerationJob_run in HNew. injection HNew as Hjob Hw1.
  simpl. split; [reflexivity|]. split.
  { rewrite Hrows2. apply lookup_insert_eq. }
  split; [rewrite <- Hjob; reflexivity|]. split.
  { apply list_elem_of_further, list_elem_of_here. }
  rewrite Hbroker2, <- Hw1. reflexivity.
Qed.

Lemma noop_publisher_submit_succeeds_witness :
  (submit noop_service quiet_world).1 = (ID (submit_new quiet_world).1, None) /\
  Status <$> rows (submit noop_service quiet_world).2
               !! ID (submit_new quiet_world).1 =
    Some ResumeJobStatusPending /\
  broker (submit noop_service quiet_world).2 = broker quiet_world.
Proof.
  destruct (noop_publisher_submit_succeeds noop_service 7 "Senior Go Engineer"
              sample_metadata (workerJob (submit_new quiet_world).1)
              quiet_world quiet_world
              (submit_new quiet_world).1 (submit_new quiet_world).2
              (submit_created quiet_world).2)
    as (_ & _ & _ & Hret & Hrow & Hst & _ & Hbroker).
  - vm_compute. reflexivity.
  - vm_compute. reflexivity.
  - split; [exact Hret|]. split; [|exact Hbroker].
    unfold submit. rewrite Hrow. exact (f_equal Some Hst).
Defined.

(** ** The worker's callbacks *)

Lemma store_up_for_two w :
  store_up_for 2 w ->
  store_up w /\ forall w', outages w' = tail (outages w) -> store_up w'.
Proof.
  unfold store_up_for, store_up.
  destruct (outages w) as [|a [|b o]]; simpl; intros Hnot.
  - split; [discriminate|]. intros w' ->. discriminate.
  - split.
    + intros [= ->]. apply Hnot. apply list_elem_of_here.
    + intros w' ->. discriminate.
  - split.
    + intros [= ->]. apply Hnot. apply list_elem_of_here.
    + intros w' ->. simpl. intros [= ->].
      apply Hnot. apply list_elem_of_further, list_elem_of_here.
Qed.

Section Callbacks.

Context {P : Type} `{RabbitMQPublisher P}.
Variable s : service P.

(** Both callbacks read the record, mark it and write it back, whatever
    its status was. *)

Lemma CompleteResumeGeneration_run job resumeID w :
  rows w !! ID job = Some job -> store_up_for 2 w ->
  let run := CompleteResumeGeneration s (ID job) resumeID w in
  run.1 = None /\
  rows run.2 =
    <[ID job := (MarkCompleted job resumeID (set_outages (tail (outages w)) w)).1]>
      (rows w).
Proof.
  intros Hjob Hup2 run. subst run.
  destruct (store_up_for_two w Hup2) as (Hup & Hnext).
  unfold CompleteResumeGeneration, bind.
  rewrite (Get_found _ _ _ Hup Hjob). simpl.
  match goal with |- context [UpdateResumeGenerationJob ?j ?w0] =>
    destruct (Update_accepted j w0) as (w5 & -> & Hrows5 & _)
  end.
  - apply Hnext. reflexivity.
  - simpl. rewrite Hjob. eauto.
  - simpl. split; [reflexivity|]. exact Hrows5.
Qed.

Lemma FailResumeGeneration_run job errorMessage w :
  rows w !! ID job = Some job -> store_up_for 2 w ->
  let run := FailResumeGeneration s (ID job) errorMessage w in
  run.1 = None /\
  rows run.2 =
    <[ID job := (MarkFailed job errorMessage "GENERATION_ERROR"
                   (set_outages (tail (outages w)) w)).1]>
      (rows w).
Proof.
  intros Hjob Hup2 run. subst run.
  destruct (store_up_for_two w Hup2) as (Hup & Hnext).
  unfold FailResumeGeneration, bind.
  rewrite (Get_found _ _ _ Hup Hjob). simpl.
  match goal with |- context [UpdateResumeGenerationJob ?j ?w0] =>
    destruct (Update_accepted j w0) as (w5 & -> & Hrows5 & _)
  end.
  - apply Hnext. reflexivity.
  - simpl. rewrite Hjob. eauto.
  - simpl. split; [reflexivity|]. exact Hrows5.
Qed.

(** C4.  [CompleteResumeGeneration] on a stored job that is not yet
    terminal, with the store reachable for its read and its write, returns
    no error and leaves the job Completed, with the given resume as its
    result reference and both error fields empty; id, owner and payload are
    as before. *)
Theorem complete_marks_job_completed job resumeID w :
  rows w !! ID job = Some job ->
  is_terminal (Status job) = false ->
  store_up_for 2 w ->
  let run := CompleteResumeGeneration s (ID job) resumeID w in
  run.1 = None /\
  exists j, rows run.2 !! ID job = Some j /\
    Status j = ResumeJobStatusCompleted /\ ResumeID j = Some resumeID /\
    ErrorMessage j = "" /\ ErrorCode j = "" /\
    ID j = ID job /\ UserID j = UserID job /\
    JobDescription j = JobDescription job /\ Metadata j = Metadata job.
Proof.
  intros Hjob _ Hup2 run.
  destruct (CompleteResumeGeneration_run job resumeID w Hjob Hup2) as (Hret & Hrows).
  split; [exact Hret|]. subst run. rewrite Hrows, lookup_insert_eq.
  eexists. split; [reflexivity|]. simpl. repeat split.
Qed.

(** C5.  [FailResumeGeneration] on a stored job that is not yet terminal,
    with the store reachable for its read and its write, returns no error
    and leaves the job Failed with the given message; the worker callback
    carries no code, and GENERATION_ERROR is recorded. *)
Theorem fail_marks_job_failed job errorMessage w :
  rows w !! ID job = Some job ->
  is_terminal (Status job) = false ->
  store_up_for 2 w ->
  let run := FailResumeGeneration s (ID job) errorMessage w in
  run.1 = None /\
  exists j, rows run.2 !! ID job = Some j /\
    Status j = ResumeJobStatusFailed /\ ErrorMessage j = errorMessage /\
    ErrorCode j = "GENERATION_ERROR" /\
    ID j = ID job /\ UserID j = UserID job /\
    JobDescription j = JobDescription job /\ Metadata j = Metadata job.
Proof.
  intros Hjob _ Hup2 run.
  destruct (FailResumeGeneration_run job errorMessage w Hjob Hup2) as (Hret & Hrows).
  split; [exact Hret|]. subst run. rewrite Hrows, lookup_insert_eq.
  eexists. split; [reflexivity|]. simpl. repeat split.
Qed.

(** C7, as amended.  [GetResumeGenerationJobStatus] takes the job id and
    nothing about the caller: when the store is reachable it fails with
    NotFound for an unknown id and returns the stored record for a known
    id, whoever owns it. *)
Theorem status_lookup_is_by_id_alone jobID w :
  store_up w ->
  (GetResumeGenerationJobStatus s jobID w).1 =
  match rows w !! jobID with
  | Some job => Ok job
  | None => Err NotFound
  end.
Proof.
  intros Hup. unfold GetResumeGenerationJobStatus, bind.
  destruct (rows w !! jobID) as [job|] eqn:Hjob.
  - rewrite (Get_found _ _ _ Hup Hjob). reflexivity.
  - rewrite (Get_missing _ _ Hup Hjob). reflexivity.
Qed.

End Callbacks.

Lemma complete_marks_job_completed_witness :
  (CompleteResumeGeneration noop_service (ID (submit_new quiet_world).1) 99
     after_submit).1 = None /\
  exists j,
    rows (CompleteResumeGeneration noop_service (ID (submit_new quiet_world).1) 99
            after_submit).2 !! ID (submit_new quiet_world).1 = Some j /\
    Status j = ResumeJobStatusCompleted /\ ResumeID j = Some 99 /\
    ErrorMessage j = "" /\ ErrorCode j = "".
Proof.
  destruct (complete_marks_job_completed noop_service
              (submit_new quiet_world).1 99 after_submit)
    as (Hret & j & Hj & Hst & Href & Hmsg & Hcode & _).
  - vm_compute. reflexivity.
  - reflexivity.
  - vm_compute. apply not_elem_of_nil.
  - split; [exact Hret|]. exists j. auto.
Defined.

Lemma fail_marks_job_failed_witness :
  (FailResumeGeneration noop_service (ID (submit_new quiet_world).1)
     "template render error" after_submit).1 = None /\
  exists j,
    rows (FailResumeGeneration noop_service (ID (submit_new quiet_world).1)
            "template render error" after_submit).2
      !! ID (submit_new quiet_world).1 = Some j /\
    Status j = ResumeJobStatusFailed /\
    ErrorMessage j = "template render error" /\
    ErrorCode j = "GENERATION_ERROR".
Proof.
  destruct (fail_marks_job_failed noop_service
              (submit_new quiet_world).1 "template render error" after_submit)
    as (Hret & j & Hj & Hst & Hmsg & Hcode & _).
  - vm_compute. reflexivity.
  - reflexivity.
  - vm_compute. apply not_elem_of_nil.
  - split; [exact Hret|]. exists j. auto.
Defined.

Lemma status_lookup_is_by_id_alone_witness :
  (GetResumeGenerationJobStatus noop_service 5 after_submit).1 = Err NotFound.
Proof.
  rewrite (status_lookup_is_by_id_alone noop_service 5 after_submit).
  - vm_compute. reflexivity.
  - vm_compute. discriminate.
Defined.

(** C7, as stated, fails: the job submitted by user 7 is returned to
    whoever asks for its id; a caller acting for user 8 gets the record
    and not NotFound. *)
Lemma foreign_job_is_returned :
  exists job,
    (GetResumeGenerationJobStatus noop_service (uuid.New 1) after_submit).1 = Ok job /\
    UserID job = 7 /\ UserID job <> 8.
Proof.
  eexists. split; [vm_compute; reflexivity|].
  split; [reflexivity | discriminate].
Qed.

(** ** The state machine *)

Lemma apply_operation_run op j w :
  let j' := (apply_operation op j w).1 in
  Status j' = target op /\ ID j' = ID j /\ UserID j' = UserID j /\
  JobDescription j' = JobDescription j /\ Metadata j' = Metadata j /\
  CreatedAt j' = CreatedAt j.
Proof. destruct op; simpl; repeat split. Qed.

(** C2, as amended.  The operations do not look at the current status:
    Complete, Fail, MarkProcessing and MarkCancelled set the status to
    Completed, Failed, Processing and Cancelled whatever it was, so a job
    keeps its status under an operation exactly when that status is the
    operation's own target; the same holds for the stored record when the
    worker's callbacks run against a reachable store.  No operation changes
    the job's id, owner or payload. *)
Theorem operations_do_not_check_status {P : Type} `{RabbitMQPublisher P}
    (s : service P) (op : operation) (job : ResumeGenerationJob)
    (resumeID : UUID) (errorMessage : string) (w0 w : World) :
  rows w !! ID job = Some job ->
  store_up_for 2 w ->
  let j' := (apply_operation op job w0).1 in
  Status j' = target op /\
  (Status j' = Status job <-> target op = Status job) /\
  ID j' = ID job /\ UserID j' = UserID job /\
  JobDescription j' = JobDescription job /\ Metadata j' = Metadata job /\
  Status <$> rows (CompleteResumeGeneration s (ID job) resumeID w).2 !! ID job =
    Some ResumeJobStatusCompleted /\
  Status <$> rows (FailResumeGeneration s (ID job) errorMessage w).2 !! ID job =
    Some ResumeJobStatusFailed.
Proof.
  intros Hjob Hup2 j'.
  destruct (apply_operation_run op job w0) as (Hst & Hid & Hu & Hd & Hm & _).
  fold j' in Hst, Hid, Hu, Hd, Hm.
  split; [exact Hst|]. split; [rewrite Hst; reflexivity|].
  repeat (split; [assumption|]).
  destruct (CompleteResumeGeneration_run s job resumeID w Hjob Hup2) as (_ & ->).
  destruct (FailResumeGeneration_run s job errorMessage w Hjob Hup2) as (_ & ->).
  rewrite !lookup_insert_eq. split; reflexivity.
Qed.

Lemma operations_do_not_check_status_witness :
  Status failed_job = ResumeJobStatusFailed /\
  Status <$> rows (CompleteResumeGeneration noop_service (ID failed_job) 99
                     after_fail).2 !! ID failed_job =
    Some ResumeJobStatusCompleted.
Proof.
  split; [reflexivity|].
  apply (operations_do_not_check_status noop_service OpMarkProcessing failed_job
           99 "template render error" quiet_world after_fail).
  - vm_compute. reflexivity.
  - vm_compute. apply not_elem_of_nil.
Defined.

(** C2, as stated, fails: a job that the worker has failed is Failed, a
    terminal state, and a later Complete makes it Completed. *)
Lemma complete_after_fail_changes_status :
  Status <$> rows after_fail !! uuid.New 1 = Some ResumeJobStatusFailed /\
  is_terminal ResumeJobStatusFailed = true /\
  Status <$> rows after_fail_then_complete !! uuid.New 1 =
    Some ResumeJobStatusCompleted.
Proof. vm_compute. repeat split; reflexivity. Qed.

(** C6, as amended.  For every job record reached from its creation by
    operations that each find the job not yet terminal: a Completed job
    has a result reference and no error information, a Failed job has
    error information and no result reference, and a Pending, Processing
    or Cancelled job has neither. *)
Theorem forward_jobs_have_status_shape j :
  reachable_forward j -> status_shape j.
Proof.
  induction 1 as [userID jobDescription metadata w | op j w Hreach IH Hnt].
  - rewrite NewResumeGenerationJob_run. split; reflexivity.
  - unfold status_shape, resultRef_set, errorInfo_set in *.
    destruct (Status j); try discriminate Hnt; destruct IH as [Href Herr];
      destruct op; simpl; rewrite ?andb_false_r; auto.
Qed.

Lemma forward_jobs_have_status_shape_witness :
  resultRef_set completed_job = true /\ errorInfo_set completed_job = false.
Proof.
  apply (forward_jobs_have_status_shape completed_job).
  unfold completed_job. apply forward_step.
  - apply forward_new.
  - reflexivity.
Defined.

(** C6, as stated, fails: cancelling the job just submitted gives a record
    in a terminal state with neither a result reference nor error
    information. *)
Lemma cancelled_job_has_neither :
  reachable cancelled_job /\
  Status cancelled_job = ResumeJobStatusCancelled /\
  is_terminal (Status cancelled_job) = true /\
  resultRef_set cancelled_job = false /\ errorInfo_set cancelled_job = false.
Proof.
  split.
  - unfold cancelled_job. apply reach_step. apply reach_new.
  - repeat split.
Qed.

(** * Further properties *)

(** ** What a call does to the table *)

Lemma store_call_any w :
  exists up, store_call w = (up, set_outages (tail (outages w)) w).
Proof.
  destruct (store_up_dec w) as [Hup|Hdown].
  - exists true. apply store_call_up, Hup.
  - exists false. apply store_call_down, Hdown.
Qed.

Lemma Create_cases job w :
  let run := CreateResumeGenerationJob job w in
  outages run.2 = tail (outages w) /\ broker run.2 = broker w /\
  logs run.2 = logs w /\
  ((run.1 = None /\ rows w !! ID job = None /\
    rows run.2 = <[ID job := job]> (rows w)) \/
   ((run.1 = Some DuplicateID \/ run.1 = Some PersistenceError) /\
    rows run.2 = rows w)).
Proof.
  unfold CreateResumeGenerationJob, bind.
  destruct (store_call_any w) as [[] ->]; simpl.
  - destruct (rows w !! ID job) eqn:Hrow; simpl; auto 10.
  - auto 10.
Qed.

Lemma Update_cases job w :
  let run := UpdateResumeGenerationJob job w in
  outages run.2 = tail (outages w) /\ broker run.2 = broker w /\
  logs run.2 = logs w /\
  ((run.1 = None /\ is_Some (rows w !! ID job) /\
    rows run.2 = <[ID job := job]> (rows w)) \/
   ((run.1 = Some NotFound \/ run.1 = Some PersistenceError) /\
    rows run.2 = rows w)).
Proof.
  unfold UpdateResumeGenerationJob, bind.
  destruct (store_call_any w) as [[] ->]; simpl.
  - destruct (rows w !! ID job) eqn:Hrow; simpl; eauto 10.
  - auto 10.
Qed.

Lemma Get_cases jobID w :
  let run := GetResumeGenerationJob jobID w in
  run.2 = set_outages (tail (outages w)) w /\
  ((exists job, run.1 = Ok job /\ rows w !! jobID = Some job) \/
   run.1 = Err NotFound \/ run.1 = Err PersistenceError).
Proof.
  unfold GetResumeGenerationJob, bind.
  destruct (store_call_any w) as [[] ->]; simpl.
  - destruct (rows w !! jobID) eqn:Hrow; simpl; eauto 10.
  - auto 10.
Qed.

Section Calls.

Context {P : Type} `{PublisherFrame P}.
Variable s : service P.

(** The ways a submission can end, by what it leaves in the table. *)
Lemma GenerateResume_cases userID jobDescription metadata w :
  let job := (NewResumeGenerationJob userID jobDescription metadata w).1 in
  let run := GenerateResume s userID jobDescription metadata w in
  (exists e, run.1 = (uuid.Nil, Some e) /\
     (e = DuplicateID \/ e = PersistenceError) /\
     rows run.2 = rows w /\ broker run.2 = broker w) \/
  (run.1 = (ID job, None) /\ rows w !! ID job = None /\
   rows run.2 = <[ID job := job]> (rows w)) \/
  (exists e failed, run.1 = (uuid.Nil, Some e) /\ rows w !! ID job = None /\
     same_job job failed /\
     (rows run.2 = <[ID job := job]> (rows w) \/
      rows run.2 = <[ID job := failed]> (rows w))).
Proof.
  intros job run. subst job run.
  destruct (NewResumeGenerationJob userID jobDescription metadata w)
    as [job w1] eqn:HNew.
  assert (Hw1 : rows w1 = rows w /\ broker w1 = broker w).
  { rewrite NewResumeGenerationJob_run in HNew. injection HNew as _ <-.
    split; reflexivity. }
  destruct Hw1 as [Hrows1 Hbroker1]. simpl.
  destruct (Create_cases job w1) as (_ & Hbroker2 & _ & Hcreate).
  destruct (CreateResumeGenerationJob job w1) as [err w2] eqn:HCreate.
  simpl in Hbroker2, Hcreate.
  destruct Hcreate as [(-> & Hfresh & Hrows2) | (Herr & Hrows2)].
  - rewrite Hrows1 in Hfresh, Hrows2.
    destruct (PublishResumeGenerationJob (publisher s) (workerJob job) w2)
      as [[e|] w3] eqn:HPublish.
    + right. right.
      destruct (GenerateResume_publish_failed s userID jobDescription metadata
                  w job w1 w2 e w3 HNew HCreate HPublish)
        as (failed & w4 & HMark & _ & Hrows4 & ->).
      rewrite Hrows1 in Hrows4.
      exists e, failed. simpl. split; [reflexivity|]. split; [exact Hfresh|].
      injection HMark as <- <-. split; [repeat split|].
      match goal with |- context [UpdateResumeGenerationJob ?j ?w0] =>
        destruct (Update_cases j w0) as (_ & _ & _ & [(_ & _ & Hu) | (_ & Hu)])
      end; rewrite Hu; simpl; simpl in Hrows4; rewrite Hrows4.
      * right. apply insert_insert_eq.
      * left. reflexivity.
    + right. left.
      rewrite (GenerateResume_queued s userID jobDescription metadata
                 w job w1 w2 w3 HNew HCreate HPublish). simpl.
      pose proof (publish_rows (publisher s) (workerJob job) w2) as Hrows3.
      rewrite HPublish in Hrows3. simpl in Hrows3.
      split; [reflexivity|]. split; [exact Hfresh|]. congruence.
  - left. unfold GenerateResume, bind. rewrite HNew. cbv beta iota.
    rewrite HCreate.
    destruct Herr as [-> | ->]; simpl; eexists; (split; [reflexivity|]);
      (split; [auto|]); split; congruence.
Qed.

End Calls.

Section Callbacks2.

Context {P : Type} `{RabbitMQPublisher P}.
Variable s : service P.

(** The ways a callback can end. *)
Lemma CompleteResumeGeneration_cases jobID resumeID w :
  let run := CompleteResumeGeneration s jobID resumeID w in
  broker run.2 = broker w /\
  ((exists e, run.1 = Some e /\ (e = NotFound \/ e = PersistenceError) /\
      rows run.2 = rows w) \/
   (exists job w0, run.1 = None /\ rows w !! jobID = Some job /\
      is_Some (rows w !! ID job) /\
      rows run.2 = <[ID job := (MarkCompleted job resumeID w0).1]> (rows w) /\
      outages run.2 = tail (tail (outages w)))).
Proof.
  unfold CompleteResumeGeneration, bind.
  destruct (Get_cases jobID w) as (Hw & Hget).
  destruct (GetResumeGenerationJob jobID w) as [[job|e] w1]; simpl in *; subst w1.
  - destruct Hget as [(job' & [= <-] & Hjob) | [Hget | Hget]]; try discriminate.
    match goal with |- context [UpdateResumeGenerationJob ?j ?w0] =>
      destruct (Update_cases j w0) as (Ho & Hb & _ & Hupd);
      destruct (UpdateResumeGenerationJob j w0) as [err w2]
    end; simpl in *.
    destruct Hupd as [(-> & Hsome & Hrows) | ([-> | ->] & Hrows)]; simpl;
      (split; [exact Hb|]).
    + right. exists job, (set_outages (tail (outages w)) w).
      split; [reflexivity|]. split; [exact Hjob|]. split; [exact Hsome|].
      split; [exact Hrows | exact Ho].
    + left. eexists. split; [reflexivity|]. split; [auto | exact Hrows].
    + left. eexists. split; [reflexivity|]. split; [auto | exact Hrows].
  - split; [reflexivity|]. left. exists e. split; [reflexivity|].
    split; [|reflexivity].
    destruct Hget as [(job' & Hj & _) | [Hget | Hget]]; try discriminate;
      injection Hget as ->; auto.
Qed.

Lemma FailResumeGeneration_cases jobID errorMessage w :
  let run := FailResumeGeneration s jobID errorMessage w in
  broker run.2 = broker w /\
  ((exists e, run.1 = Some e /\ (e = NotFound \/ e = PersistenceError) /\
      rows run.2 = rows w) \/
   (exists job w0, run.1 = None /\ rows w !! jobID = Some job /\
      is_Some (rows w !! ID job) /\
      rows run.2 =
        <[ID job := (MarkFailed job errorMessage "GENERATION_ERROR" w0).1]> (rows w) /\
      outages run.2 = tail (tail (outages w)))).
Proof.
  unfold FailResumeGeneration, bind.
  destruct (Get_cases jobID w) as (Hw & Hget).
  destruct (GetResumeGenerationJob jobID w) as [[job|e] w1]; simpl in *; subst w1.
  - destruct Hget as [(job' & [= <-] & Hjob) | [Hget | Hget]]; try discriminate.
    match goal with |- context [UpdateResumeGenerationJob ?j ?w0] =>
      destruct (Update_cases j w0) as (Ho & Hb & _ & Hupd);
      destruct (UpdateResumeGenerationJob j w0) as [err w2]
    end; simpl in *.
    destruct Hupd as [(-> & Hsome & Hrows) | ([-> | ->] & Hrows)]; simpl;
      (split; [exact Hb|]).
    + right. exists job, (set_outages (tail (outages w)) w).
      split; [reflexivity|]. split; [exact Hjob|]. split; [exact Hsome|].
      split; [exact Hrows | exact Ho].
    + left. eexists. split; [reflexivity|]. split; [auto | exact Hrows].
    + left. eexists. split; [reflexivity|]. split; [auto | exact Hrows].
  - split; [reflexivity|]. left. exists e. split; [reflexivity|].
    split; [|reflexivity].
    destruct Hget as [(job' & Hj & _) | [Hget | Hget]]; try discriminate;
      injection Hget as ->; auto.
Qed.

Lemma GetResumeGenerationJobStatus_rows jobID w :
  rows (GetResumeGenerationJobStatus s jobID w).2 = rows w.
Proof.
  unfold GetResumeGenerationJobStatus, bind.
  destruct (Get_cases jobID w) as (Hw & _).
  destruct (GetResumeGenerationJob jobID w) as [[job|e] w1]; simpl in *;
    subst w1; reflexivity.
Qed.


(** X2.  A callback for a job id that is not in the table, with the store
    reachable, returns NotFound and leaves the table as it was: it creates
    no record for the id. *)
Theorem callback_for_unknown_job jobID resumeID errorMessage w :
  store_up w -> rows w !! jobID = None ->
  (CompleteResumeGeneration s jobID resumeID w).1 = Some NotFound /\
  rows (CompleteResumeGeneration s jobID resumeID w).2 = rows w /\
  (FailResumeGeneration s jobID errorMessage w).1 = Some NotFound /\
  rows (FailResumeGeneration s jobID errorMessage w).2 = rows w.
Proof.
  intros Hup Hnone.
  unfold CompleteResumeGeneration, FailResumeGeneration, bind.
  rewrite (Get_missing jobID w Hup Hnone). simpl. auto.
Qed.

End Callbacks2.

Lemma callback_for_unknown_job_witness :
  (CompleteResumeGeneration noop_service 5 99 after_submit).1 = Some NotFound /\
  rows (CompleteResumeGeneration noop_service 5 99 after_submit).2
    = rows after_submit /\
  (FailResumeGeneration noop_service 5 "template render error" after_submit).1
    = Some NotFound /\
  rows (FailResumeGeneration noop_service 5 "template render error" after_submit).2
    = rows after_submit.
Proof.
  apply (callback_for_unknown_job noop_service 5 99 "template render error"
           after_submit).
  - vm_compute. discriminate.
  - vm_compute. reflexivity.
Defined.

(** ** Any sequence of calls *)

Lemma same_job_refl j : same_job j j.
Proof. repeat split. Qed.

Lemma same_job_trans j1 j2 j3 : same_job j1 j2 -> same_job j2 j3 -> same_job j1 j3.
Proof.
  unfold same_job. intros (? & ? & ? & ? & ?) (? & ? & ? & ? & ?).
  repeat split; congruence.
Qed.

Lemma store_keyed_insert id j w w' :
  store_keyed w -> ID j = id -> rows w' = <[id := j]> (rows w) ->
  store_keyed w'.
Proof.
  intros Hkeyed Hid Hrows id' j'. rewrite Hrows, lookup_insert.
  case_decide as Heq.
  - intros [= <-]. congruence.
  - apply Hkeyed.
Qed.

Section Sequences.

Context {P : Type} `{PublisherFrame P}.
Variable s : service P.

(** One call: the key discipline of the table is kept, rows of other jobs
    are not touched, and the row of the job concerned stays that job's. *)
Lemma perform_step c w :
  store_keyed w ->
  store_keyed (perform s c w) /\
  (forall id, id <> subject c w -> rows (perform s c w) !! id = rows w !! id) /\
  (forall j, rows w !! subject c w = Some j ->
     exists j', rows (perform s c w) !! subject c w = Some j' /\ same_job j j').
Proof.
  intros Hkeyed. destruct c as [u d md | jobID | jobID resumeID | jobID msg]; simpl.
  - destruct (GenerateResume_cases s u d md w)
      as [(e & _ & _ & Hrows & _) |
          [(_ & Hfresh & Hrows) | (e & failed & _ & Hfresh & Hsame & Hrows)]].
    + unfold store_keyed. rewrite Hrows. split; [exact Hkeyed|].
      split; [reflexivity|]. intros j Hj. exists j. split; [exact Hj|].
      apply same_job_refl.
    + split; [|split].
      * eapply store_keyed_insert; [exact Hkeyed | | exact Hrows]. reflexivity.
      * intros id Hne. rewrite Hrows. apply lookup_insert_ne. simpl. congruence.
      * intros j Hj. simpl in Hfresh. congruence.
    + destruct Hsame as (Hid & _). split; [|split].
      * destruct Hrows as [Hrows | Hrows];
          (eapply store_keyed_insert; [exact Hkeyed | | exact Hrows]);
          [reflexivity | exact Hid].
      * intros id Hne.
        destruct Hrows as [-> | ->]; apply lookup_insert_ne; simpl; congruence.
      * intros j Hj. simpl in Hfresh. congruence.
  - rewrite GetResumeGenerationJobStatus_rows. unfold store_keyed.
    rewrite GetResumeGenerationJobStatus_rows.
    split; [exact Hkeyed|]. split; [reflexivity|].
    intros j Hj. exists j. split; [exact Hj | apply same_job_refl].
  - destruct (CompleteResumeGeneration_cases s jobID resumeID w)
      as (_ & [(e & _ & _ & Hrows) | (job & w0 & _ & Hjob & _ & Hrows & _)]).
    + unfold store_keyed. rewrite Hrows. split; [exact Hkeyed|].
      split; [reflexivity|]. intros j Hj. exists j. split; [exact Hj|].
      apply same_job_refl.
    + pose proof (Hkeyed _ _ Hjob) as Hid. rewrite Hid in Hrows.
      split; [|split].
      * eapply store_keyed_insert; [exact Hkeyed | | exact Hrows]. exact Hid.
      * intros id Hne. rewrite Hrows. apply lookup_insert_ne. congruence.
      * intros j Hj. rewrite Hrows, lookup_insert_eq. eexists.
        split; [reflexivity|]. rewrite Hjob in Hj. injection Hj as <-.
        repeat split.
  - destruct (FailResumeGeneration_cases s jobID msg w)
      as (_ & [(e & _ & _ & Hrows) | (job & w0 & _ & Hjob & _ & Hrows & _)]).
    + unfold store_keyed. rewrite Hrows. split; [exact Hkeyed|].
      split; [reflexivity|]. intros j Hj. exists j. split; [exact Hj|].
      apply same_job_refl.
    + pose proof (Hkeyed _ _ Hjob) as Hid. rewrite Hid in Hrows.
      split; [|split].
      * eapply store_keyed_insert; [exact Hkeyed | | exact Hrows]. exact Hid.
      * intros id Hne. rewrite Hrows. apply lookup_insert_ne. congruence.
      * intros j Hj. rewrite Hrows, lookup_insert_eq. eexists.
        split; [reflexivity|]. rewrite Hjob in Hj. injection Hj as <-.
        repeat split.
Qed.


(** X4.  A call changes no row but that of the job it is about: a
    submission leaves all existing rows alone, and a status query or a
    callback for one job leaves the rows of all other jobs alone. *)
Theorem call_touches_one_row c w id :
  store_keyed w -> id <> subject c w ->
  rows (perform s c w) !! id = rows w !! id.
Proof.
  intros Hkeyed Hne. destruct (perform_step c w Hkeyed) as (_ & Hother & _).
  apply Hother, Hne.
Qed.

(** X5.  The service never deletes a job and never changes whose it is or
    what was asked: after any sequence of calls a stored job is still
    stored under its id, with the same owner, description, metadata and
    creation time. *)
Theorem stored_jobs_are_kept cs w id j :
  store_keyed w -> rows w !! id = Some j ->
  exists j', rows (perform_all s cs w) !! id = Some j' /\ same_job j j'.
Proof.
  revert w j. induction cs as [|c cs IH]; intros w j Hkeyed Hj; simpl.
  - exists j. split; [exact Hj | apply same_job_refl].
  - destruct (perform_step c w Hkeyed) as (Hkeyed' & Hother & Hsubject).
    destruct (decide (id = subject c w)) as [-> | Hne].
    + destruct (Hsubject j Hj) as (j1 & Hj1 & Hsame1).
      destruct (IH _ j1 Hkeyed' Hj1) as (j' & Hj' & Hsame').
      exists j'. split; [exact Hj'|]. eapply same_job_trans; eassumption.
    + apply (IH _ j Hkeyed'). rewrite (Hother id Hne). exact Hj.
Qed.

End Sequences.

Lemma sample_calls_from_empty_table :
  store_keyed quiet_world.
Proof. intros id j. unfold quiet_world. simpl. rewrite lookup_empty. discriminate. Qed.


Lemma after_submit_keyed : store_keyed after_submit.
Proof.
  apply (perform_step noop_service
           (CallGenerateResume 7 "Senior Go Engineer" sample_metadata) quiet_world).
  exact sample_calls_from_empty_table.
Qed.

Lemma call_touches_one_row_witness :
  rows (perform noop_service (CallComplete 5 99) after_submit) !! uuid.New 1
  = rows after_submit !! uuid.New 1.
Proof.
  apply (call_touches_one_row noop_service (CallComplete 5 99) after_submit).
  - exact after_submit_keyed.
  - vm_compute. discriminate.
Defined.

Lemma stored_jobs_are_kept_witness :
  exists j',
    rows (perform_all noop_service
            [CallFail (uuid.New 1) "template render error";
             CallComplete (uuid.New 1) 99;
             CallGenerateResume 8 "Staff Engineer" sample_metadata]
            after_submit) !! uuid.New 1 = Some j' /\
    same_job (submit_new quiet_world).1 j'.
Proof.
  apply (stored_jobs_are_kept noop_service).
  - exact after_submit_keyed.
  - vm_compute. reflexivity.
Defined.

(** ** Submissions the store refuses *)

Section Refused.

Context {P : Type} `{RabbitMQPublisher P}.
Variable s : service P.

(** X6.  When the store is unreachable for the Create, or the new job's id
    is already taken, the submission returns the nil id with the store's
    error (PersistenceError, DuplicateID), logs that one failure, and stops
    there: the table and the broker are as before, so the row that had the
    id is not overwritten and nothing is published for a job that was not
    stored. *)
Theorem refused_submission_publishes_nothing userID jobDescription metadata w :
  ~ store_up w \/ is_Some (rows w !! uuid.New (entropy w (drawn w))) ->
  let run := GenerateResume s userID jobDescription metadata w in
  exists e,
    run.1 = (uuid.Nil, Some e) /\
    (~ store_up w -> e = PersistenceError) /\
    (store_up w -> e = DuplicateID) /\
    rows run.2 = rows w /\ broker run.2 = broker w /\
    logs run.2 =
      {| level := LevelError; message := "failed to create resume generation job";
         attrs := [("error", AError e); ("userId", AUUID userID)] |} :: logs w.
Proof.
  intros Hrefused run. subst run.
  unfold GenerateResume, bind. rewrite NewResumeGenerationJob_run.
  unfold CreateResumeGenerationJob, bind.
  destruct (store_up_dec w) as [Hup | Hdown].
  - destruct Hrefused as [Hdown | [old Hold]]; [contradiction|].
    rewrite store_call_up by exact Hup. simpl. rewrite Hold. simpl.
    exists DuplicateID. repeat split; auto. intros Hdown. contradiction.
  - rewrite store_call_down by exact Hdown. simpl.
    exists PersistenceError. repeat split; auto. intros Hup. contradiction.
Qed.

End Refused.

Lemma refused_submission_publishes_nothing_witness :
  exists e,
    (GenerateResume amqp_service 8 "Staff Engineer" sample_metadata
       (set_outages [true] quiet_world)).1 = (uuid.Nil, Some e) /\
    (~ store_up (set_outages [true] quiet_world) -> e = PersistenceError) /\
    (store_up (set_outages [true] quiet_world) -> e = DuplicateID) /\
    rows (GenerateResume amqp_service 8 "Staff Engineer" sample_metadata
            (set_outages [true] quiet_world)).2
      = rows (set_outages [true] quiet_world) /\
    broker (GenerateResume amqp_service 8 "Staff Engineer" sample_metadata
              (set_outages [true] quiet_world)).2
      = broker (set_outages [true] quiet_world) /\
    logs (GenerateResume amqp_service 8 "Staff Engineer" sample_metadata
            (set_outages [true] quiet_world)).2 =
      {| level := LevelError; message := "failed to create resume generation job";
         attrs := [("error", AError e); ("userId", AUUID 8)] |}
      :: logs (set_outages [true] quiet_world).
Proof.
  apply (refused_submission_publishes_nothing amqp_service 8 "Staff Engineer"
           sample_metadata (set_outages [true] quiet_world)).
  left. vm_compute. intros Hup. apply Hup. reflexivity.
Defined.

(** ** One callback after another *)

Lemma store_up_for_split n w w' :
  store_up_for (2 + n) w -> outages w' = tail (tail (outages w)) ->
  store_up_for 2 w /\ store_up_for n w'.
Proof.
  unfold store_up_for. intros Hnot Hout. rewrite Hout.
  destruct (outages w) as [|a [|b o]]; simpl in *.
  - split; [exact Hnot|]. rewrite take_nil. apply not_elem_of_nil.
  - split; [exact Hnot|]. rewrite take_nil. apply not_elem_of_nil.
  - split.
    + intros Hin. apply Hnot.
      apply elem_of_cons in Hin as [-> | Hin]; [apply list_elem_of_here|].
      apply elem_of_cons in Hin as [-> | Hin].
      * apply list_elem_of_further, list_elem_of_here.
      * rewrite take_0 in Hin. apply not_elem_of_nil in Hin. contradiction.
    + intros Hin. apply Hnot. do 2 apply list_elem_of_further. exact Hin.
Qed.

Section CallbackPairs.

Context {P : Type} `{RabbitMQPublisher P}.
Variable s : service P.

Lemma Complete_then job resumeID w :
  rows w !! ID job = Some job -> store_up_for 2 w ->
  exists done,
    rows (CompleteResumeGeneration s (ID job) resumeID w).2 !! ID job = Some done /\
    outages (CompleteResumeGeneration s (ID job) resumeID w).2
      = tail (tail (outages w)) /\
    same_job job done /\ Status done = ResumeJobStatusCompleted /\
    ResumeID done = Some resumeID /\ ErrorMessage done = "" /\ ErrorCode done = "".
Proof.
  intros Hjob Hup2.
  destruct (CompleteResumeGeneration_run s job resumeID w Hjob Hup2) as (Hret & _).
  destruct (CompleteResumeGeneration_cases s (ID job) resumeID w)
    as (_ & [(e & He & _) | (job' & w0 & _ & Hjob' & _ & Hrows & Hout)]).
  { rewrite Hret in He. discriminate. }
  rewrite Hjob in Hjob'. injection Hjob' as <-.
  rewrite Hrows, lookup_insert_eq. eexists. split; [reflexivity|].
  split; [exact Hout|]. repeat split.
Qed.

Lemma Fail_then job errorMessage w :
  rows w !! ID job = Some job -> store_up_for 2 w ->
  exists failed,
    rows (FailResumeGeneration s (ID job) errorMessage w).2 !! ID job = Some failed /\
    outages (FailResumeGeneration s (ID job) errorMessage w).2
      = tail (tail (outages w)) /\
    same_job job failed /\ Status failed = ResumeJobStatusFailed /\
    ResumeID failed = ResumeID job /\ ErrorMessage failed = errorMessage /\
    ErrorCode failed = "GENERATION_ERROR".
Proof.
  intros Hjob Hup2.
  destruct (FailResumeGeneration_run s job errorMessage w Hjob Hup2) as (Hret & _).
  destruct (FailResumeGeneration_cases s (ID job) errorMessage w)
    as (_ & [(e & He & _) | (job' & w0 & _ & Hjob' & _ & Hrows & Hout)]).
  { rewrite Hret in He. discriminate. }
  rewrite Hjob in Hjob'. injection Hjob' as <-.
  rewrite Hrows, lookup_insert_eq. eexists. split; [reflexivity|].
  split; [exact Hout|]. repeat split.
Qed.

(** X7.  The two callbacks do not undo each other alike.  A failure
    reported after a completion leaves the job Failed with the message and
    GENERATION_ERROR, and still carrying the result reference of the
    completion: [FailResumeGeneration] never clears it.  A completion
    reported after a failure leaves the job Completed with the reference
    and both error fields empty. *)
Theorem fail_keeps_result_complete_clears_error job resumeID errorMessage w :
  rows w !! ID job = Some job -> store_up_for 4 w ->
  let completed_then_failed :=
    (FailResumeGeneration s (ID job) errorMessage
       (CompleteResumeGeneration s (ID job) resumeID w).2).2 in
  let failed_then_completed :=
    (CompleteResumeGeneration s (ID job) resumeID
       (FailResumeGeneration s (ID job) errorMessage w).2).2 in
  (exists j, rows completed_then_failed !! ID job = Some j /\
     Status j = ResumeJobStatusFailed /\ ResumeID j = Some resumeID /\
     ErrorMessage j = errorMessage /\ ErrorCode j = "GENERATION_ERROR" /\
     resultRef_set j = true /\ errorInfo_set j = true) /\
  (exists j, rows failed_then_completed !! ID job = Some j /\
     Status j = ResumeJobStatusCompleted /\ ResumeID j = Some resumeID /\
     ErrorMessage j = "" /\ ErrorCode j = "" /\
     resultRef_set j = true /\ errorInfo_set j = false).
Proof.
  intros Hjob Hup4 w12 w21. subst w12 w21. split.
  - destruct (Complete_then job resumeID w Hjob) as
      (done & Hdone & Hout & (Hid & _) & _ & Href & _).
    { exact (proj1 (store_up_for_split 2%nat w
                      (set_outages (tail (tail (outages w))) w) Hup4 eq_refl)). }
    destruct (store_up_for_split 2%nat w _ Hup4 Hout) as (_ & Hup2).
    remember (CompleteResumeGeneration s (ID job) resumeID w).2 as w1 eqn:Hw1.
    clear Hw1. rewrite <- Hid in Hdone |- *.
    destruct (Fail_then done errorMessage _ Hdone Hup2) as
      (j & Hj & _ & _ & Hst & Href' & Hmsg & Hcode).
    exists j. split; [exact Hj|]. rewrite Href in Href'.
    repeat (split; [assumption|]).
    unfold resultRef_set, errorInfo_set. rewrite Href', Hcode.
    split; [reflexivity|]. simpl. rewrite andb_false_r. reflexivity.
  - destruct (Fail_then job errorMessage w Hjob) as
      (failed & Hfailed & Hout & (Hid & _) & _).
    { exact (proj1 (store_up_for_split 2%nat w
                      (set_outages (tail (tail (outages w))) w) Hup4 eq_refl)). }
    destruct (store_up_for_split 2%nat w _ Hup4 Hout) as (_ & Hup2).
    remember (FailResumeGeneration s (ID job) errorMessage w).2 as w1 eqn:Hw1.
    clear Hw1. rewrite <- Hid in Hfailed |- *.
    destruct (Complete_then failed resumeID _ Hfailed Hup2) as
      (j & Hj & _ & _ & Hst & Href & Hmsg & Hcode).
    exists j. split; [exact Hj|].
    repeat (split; [assumption|]).
    unfold resultRef_set, errorInfo_set. rewrite Href, Hmsg, Hcode.
    split; reflexivity.
Qed.

(** X8.  Reporting the same completion twice is harmless: after the
    second report the stored job is the one the first report left, in every
    field but the update time. *)
Theorem complete_twice_is_complete_once job resumeID w :
  rows w !! ID job = Some job -> store_up_for 4 w ->
  let once := (CompleteResumeGeneration s (ID job) resumeID w).2 in
  let twice := (CompleteResumeGeneration s (ID job) resumeID once).2 in
  exists j1 j2,
    rows once !! ID job = Some j1 /\ rows twice !! ID job = Some j2 /\
    same_job j1 j2 /\ Status j2 = Status j1 /\ ResumeID j2 = ResumeID j1 /\
    ErrorMessage j2 = ErrorMessage j1 /\ ErrorCode j2 = ErrorCode j1.
Proof.
  intros Hjob Hup4 once twice. subst once twice.
  destruct (Complete_then job resumeID w Hjob) as
    (j1 & Hj1 & Hout & (Hid & _) & Hst1 & Href1 & Hmsg1 & Hcode1).
  { exact (proj1 (store_up_for_split 2%nat w
                    (set_outages (tail (tail (outages w))) w) Hup4 eq_refl)). }
  destruct (store_up_for_split 2%nat w _ Hup4 Hout) as (_ & Hup2).
  remember (CompleteResumeGeneration s (ID job) resumeID w).2 as w1 eqn:Hw1.
  clear Hw1. rewrite <- Hid in Hj1 |- *.
  destruct (Complete_then j1 resumeID _ Hj1 Hup2) as
    (j2 & Hj2 & _ & Hsame & Hst2 & Href2 & Hmsg2 & Hcode2).
  exists j1, j2. split; [exact Hj1|]. split; [exact Hj2|].
  split; [exact Hsame|]. repeat split; congruence.
Qed.

End CallbackPairs.

Lemma fail_keeps_result_complete_clears_error_witness :
  (exists j,
     rows (FailResumeGeneration noop_service (ID (submit_new quiet_world).1)
             "template render error"
             (CompleteResumeGeneration noop_service (ID (submit_new quiet_world).1)
                99 after_submit).2).2 !! ID (submit_new quiet_world).1 = Some j /\
     Status j = ResumeJobStatusFailed /\ ResumeID j = Some 99 /\
     ErrorMessage j = "template render error" /\
     ErrorCode j = "GENERATION_ERROR" /\
     resultRef_set j = true /\ errorInfo_set j = true) /\
  (exists j,
     rows (CompleteResumeGeneration noop_service (ID (submit_new quiet_world).1) 99
             (FailResumeGeneration noop_service (ID (submit_new quiet_world).1)
                "template render error" after_submit).2).2
       !! ID (submit_new quiet_world).1 = Some j /\
     Status j = ResumeJobStatusCompleted /\ ResumeID j = Some 99 /\
     ErrorMessage j = "" /\ ErrorCode j = "" /\
     resultRef_set j = true /\ errorInfo_set j = false).
Proof.
  apply (fail_keeps_result_complete_clears_error noop_service
           (submit_new quiet_world).1 99 "template render error" after_submit).
  - vm_compute. reflexivity.
  - vm_compute. apply not_elem_of_nil.
Defined.

Lemma complete_twice_is_complete_once_witness :
  exists j1 j2,
    rows (CompleteResumeGeneration noop_service (ID (submit_new quiet_world).1) 99
            after_submit).2 !! ID (submit_new quiet_world).1 = Some j1 /\
    rows (CompleteResumeGeneration noop_service (ID (submit_new quiet_world).1) 99
            (CompleteResumeGeneration noop_service
               (ID (submit_new quiet_world).1) 99 after_submit).2).2
      !! ID (submit_new quiet_world).1 = Some j2 /\
    same_job j1 j2 /\ Status j2 = Status j1 /\ ResumeID j2 = ResumeID j1 /\
    ErrorMessage j2 = ErrorMessage j1 /\ ErrorCode j2 = ErrorCode j1.
Proof.
  apply (complete_twice_is_complete_once noop_service
           (submit_new quiet_world).1 99 after_submit).
  - vm_compute. reflexivity.
  - vm_compute. apply not_elem_of_nil.
Defined.

(** ** What reaches the broker *)

(** X9.  The RabbitMQ publisher fails in exactly two situations: it holds
    no channel, or the channel is closed.  It then returns an error
    ("channel is not available", or "failed to publish job" around the
    channel's error) and the broker has received nothing. *)
Theorem rabbitMQ_publish_fails_iff_no_open_channel (p : rabbitMQPublisher)
    (item : ResumeWorkerJob) (w : World) :
  let run := PublishResumeGenerationJob p item w in
  (run.1 <> None <-> channel p = None \/ closed (broker w) = true) /\
  (forall e, run.1 = Some e ->
     broker run.2 = broker w /\
     (channel p = None ->
      e = Errorf "channel is not available" None /\ logs run.2 = logs w) /\
     (channel p <> None ->
      e = Errorf "failed to publish job" (Some ErrClosed) /\
      logs run.2 =
        {| level := LevelError; message := "failed to publish job";
           attrs := [("jobId", AString (ResumeWorkerJob.JobID item));
                     ("error", AError ErrClosed)] |} :: logs w)).
Proof.
  change (PublishResumeGenerationJob p item w)
    with (rabbitMQPublisher_Publish p item w).
  unfold rabbitMQPublisher_Publish, json_Marshal, PublishWithContext, bind.
  destruct (channel p) as [c|]; simpl.
  - destruct (closed (broker w)) eqn:Hclosed; simpl.
    + split; [split; [auto | discriminate]|].
      intros e [= <-]. split; [reflexivity|]. split; [discriminate|].
      intros _. split; reflexivity.
    + split.
      * split; [intros Hne; contradiction Hne; reflexivity|].
        intros [Hc | Hc]; discriminate.
      * intros e He. discriminate.
  - split; [split; [auto | discriminate]|].
    intros e [= <-]. split; [reflexivity|]. split.
    + intros _. split; reflexivity.
    + intros Hne. contradiction Hne. reflexivity.
Qed.

(** X10.  A publish that succeeds has handed the broker exactly one
    message, on top of those it had: persistent, of content type
    application/json, to exchange woragis.tasks under routing key
    resumes.generate, neither mandatory nor immediate, with the marshalled
    item as body; the channel stays open. *)
Theorem rabbitMQ_publish_hands_over_one_message (p : rabbitMQPublisher)
    (item : ResumeWorkerJob) (w : World) :
  (PublishResumeGenerationJob p item w).1 = None ->
  exists body,
    json_Marshal item = Ok body /\
    closed (broker (PublishResumeGenerationJob p item w).2) = false /\
    accepted (broker (PublishResumeGenerationJob p item w).2) =
      {| exchange := "woragis.tasks"; routingKey := "resumes.generate";
         mandatory := false; immediate := false;
         publishing := {| ContentType := "application/json"; Body := body;
                          Delivery := Persistent |} |}
      :: accepted (broker w).
Proof.
  change (PublishResumeGenerationJob p item w)
    with (rabbitMQPublisher_Publish p item w).
  unfold rabbitMQPublisher_Publish, json_Marshal, PublishWithContext, bind.
  destruct (channel p) as [c|]; simpl; [|discriminate].
  destruct (closed (broker w)) eqn:Hclosed; simpl; [discriminate|].
  intros _. eexists. split; [reflexivity|]. split; reflexivity.
Qed.

Lemma rabbitMQ_publish_hands_over_one_message_witness :
  exists body,
    json_Marshal (workerJob (submit_new quiet_world).1) = Ok body /\
    closed (broker (submit_published amqp_service quiet_world).2) = false /\
    accepted (broker (submit_published amqp_service quiet_world).2) =
      {| exchange := "woragis.tasks"; routingKey := "resumes.generate";
         mandatory := false; immediate := false;
         publishing := {| ContentType := "application/json"; Body := body;
                          Delivery := Persistent |} |}
      :: accepted (broker (submit_created quiet_world).2).
Proof.
  apply (rabbitMQ_publish_hands_over_one_message (publisher amqp_service)
           (workerJob (submit_new quiet_world).1) (submit_created quiet_world).2).
  vm_compute. reflexivity.
Defined.

(** X11.  Through the RabbitMQ publisher a submission hands the broker
    one message or none: one, carrying the returned job id in its text
    form as jobId, exactly when it returns no error; none when it returns
    an error, whether the store refused the job or the publish failed. *)
Theorem submission_publishes_once_or_not_at_all (s : service rabbitMQPublisher)
    (userID : UUID) (jobDescription : string) (metadata : gmap string json)
    (w : World) :
  let run := GenerateResume s userID jobDescription metadata w in
  (run.1.2 = None ->
   exists e m, accepted (broker run.2) = e :: accepted (broker w) /\
     Body (publishing e) = JObject m /\
     m !! "jobId" = Some (JString (uuid.String run.1.1))) /\
  (forall err, run.1.2 = Some err ->
     accepted (broker run.2) = accepted (broker w)).
Proof.
  intros run. subst run.
  destruct (NewResumeGenerationJob userID jobDescription metadata w)
    as [job w1] eqn:HNew.
  assert (Hbroker1 : broker w1 = broker w).
  { rewrite NewResumeGenerationJob_run in HNew. injection HNew as _ <-.
    reflexivity. }
  destruct (Create_cases job w1) as (_ & Hbroker2 & _ & _).
  destruct (CreateResumeGenerationJob job w1) as [[e|] w2] eqn:HCreate;
    simpl in Hbroker2.
  { unfold GenerateResume, bind. rewrite HNew. cbv beta iota. rewrite HCreate.
    simpl. split; [discriminate|]. intros _ _. congruence. }
  destruct (PublishResumeGenerationJob (publisher s) (workerJob job) w2)
    as [[e|] w3] eqn:HPublish.
  - destruct (rabbitMQ_publish_fails_iff_no_open_channel (publisher s)
                (workerJob job) w2) as (_ & Hfail).
    rewrite HPublish in Hfail. destruct (Hfail e eq_refl) as (Hbroker3 & _).
    simpl in Hbroker3.
    destruct (GenerateResume_publish_failed s userID jobDescription metadata
                w job w1 w2 e w3 HNew HCreate HPublish)
      as (failed & w4 & HMark & _ & _ & ->).
    injection HMark as <- <-. simpl.
    split; [discriminate|]. intros _ _.
    match goal with |- context [UpdateResumeGenerationJob ?j ?w0] =>
      destruct (Update_cases j w0) as (_ & -> & _)
    end. simpl. congruence.
  - pose proof (rabbitMQ_publish_hands_over_one_message (publisher s)
                  (workerJob job) w2) as Hok.
    rewrite HPublish in Hok. destruct (Hok eq_refl) as (body & Hbody & _ & Hacc).
    simpl in Hacc. rewrite json_Marshal_workerJob in Hbody. injection Hbody as <-.
    rewrite (GenerateResume_queued s userID jobDescription metadata
               w job w1 w2 w3 HNew HCreate HPublish). simpl.
    split; [|discriminate]. intros _.
    eexists _, _. split; [rewrite Hacc, Hbroker2, Hbroker1; reflexivity|].
    simpl. split; [reflexivity|]. apply lookup_insert_eq.
Qed.

(** X12.  Once the publisher has been closed, every publish fails with
    "failed to publish job" and nothing more reaches the broker; closing
    itself drops none of the messages already handed over. *)
Theorem closed_publisher_refuses (p : rabbitMQPublisher) (item : ResumeWorkerJob)
    (w : World) :
  channel p = Some TheChannel -> closed (broker w) = false ->
  let after_close := (Close p w).2 in
  (Close p w).1 = None /\
  accepted (broker after_close) = accepted (broker w) /\
  (PublishResumeGenerationJob p item after_close).1 =
    Some (Errorf "failed to publish job" (Some ErrClosed)) /\
  accepted (broker (PublishResumeGenerationJob p item after_close).2) =
    accepted (broker w).
Proof.
  intros Hchan Hopen after_close. subst after_close.
  change (Close p w) with (rabbitMQPublisher_Close p w).
  assert (Hclose : rabbitMQPublisher_Close p w =
            (None, set_broker {| closed := true;
                                 accepted := accepted (broker w) |} w)).
  { unfold rabbitMQPublisher_Close, channel_Close. rewrite Hchan, Hopen.
    reflexivity. }
  rewrite Hclose. cbn [fst snd].
  split; [reflexivity|]. split; [reflexivity|].
  match goal with |- context [PublishResumeGenerationJob p item ?w0] =>
    change (PublishResumeGenerationJob p item w0)
      with (rabbitMQPublisher_Publish p item w0)
  end.
  unfold rabbitMQPublisher_Publish, json_Marshal, PublishWithContext, bind.
  rewrite Hchan. simpl. split; reflexivity.
Qed.

Lemma closed_publisher_refuses_witness :
  (Close (publisher amqp_service) quiet_world).1 = None /\
  accepted (broker (Close (publisher amqp_service) quiet_world).2)
    = accepted (broker quiet_world) /\
  (PublishResumeGenerationJob (publisher amqp_service)
     (workerJob (submit_new quiet_world).1)
     (Close (publisher amqp_service) quiet_world).2).1
    = Some (Errorf "failed to publish job" (Some ErrClosed)) /\
  accepted (broker (PublishResumeGenerationJob (publisher amqp_service)
                      (workerJob (submit_new quiet_world).1)
                      (Close (publisher amqp_service) quiet_world).2).2)
    = accepted (broker quiet_world).
Proof.
  apply (closed_publisher_refuses (publisher amqp_service)
           (workerJob (submit_new quiet_world).1) quiet_world).
  - reflexivity.
  - reflexivity.
Defined.

(** ** Records, whatever their history *)

(** X13.  However a job record came about, by whatever operations in
    whatever order: if it is Completed it has a result reference and no
    error information; if it is Pending it has neither; if it is Failed it
    has error information. *)
Theorem reachable_jobs_by_status j :
  reachable j ->
  (Status j = ResumeJobStatusCompleted ->
   resultRef_set j = true /\ errorInfo_set j = false) /\
  (Status j = ResumeJobStatusPending ->
   resultRef_set j = false /\ errorInfo_set j = false) /\
  (Status j = ResumeJobStatusFailed -> errorInfo_set j = true).
Proof.
  induction 1 as [userID jobDescription metadata w | op j w Hreach IH].
  - rewrite NewResumeGenerationJob_run. simpl.
    repeat split; try discriminate.
  - unfold resultRef_set, errorInfo_set.
    destruct op; simpl; rewrite ?andb_false_r;
      repeat split; try discriminate; reflexivity.
Qed.

Lemma reachable_jobs_by_status_witness :
  errorInfo_set
    (apply_operation (OpFail "template render error") completed_job quiet_world).1
  = true.
Proof.
  apply (reachable_jobs_by_status
           (apply_operation (OpFail "template render error") completed_job
              quiet_world).1).
  - apply reach_step. unfold completed_job. apply reach_step. apply reach_new.
  - reflexivity.
Defined.

(** ** Ids in text form *)

Lemma small_cases (a : N) :
  a < 16 ->
  a = 0 \/ a = 1 \/ a = 2 \/ a = 3 \/ a = 4 \/ a = 5 \/ a = 6 \/ a = 7 \/
  a = 8 \/ a = 9 \/ a = 10 \/ a = 11 \/ a = 12 \/ a = 13 \/ a = 14 \/ a = 15.
Proof. lia. Qed.

Lemma hexdigit_inj a b :
  a < 16 -> b < 16 -> uuid.hexdigit a = uuid.hexdigit b -> a = b.
Proof.
  intros Ha Hb.
  destruct (small_cases a Ha) as [->|[->|[->|[->|[->|[->|[->|[->|
    [->|[->|[->|[->|[->|[->|[->| ->]]]]]]]]]]]]]]];
  destruct (small_cases b Hb) as [->|[->|[->|[->|[->|[->|[->|[->|
    [->|[->|[->|[->|[->|[->|[->| ->]]]]]]]]]]]]]]];
  intros Heq; try reflexivity; discriminate Heq.
Qed.

Lemma nibble_lt u i : uuid.nibble u i < 16.
Proof.
  unfold uuid.nibble. change 15 with (N.ones 4). rewrite N.land_ones.
  apply N.mod_lt. discriminate.
Qed.

Lemma nibble_testbit u i r :
  r < 4 ->
  N.testbit (uuid.nibble u i) r = N.testbit u (r + 4 * N.of_nat (31 - i)).
Proof.
  intros Hr. unfold uuid.nibble. rewrite N.land_spec, N.shiftr_spec by lia.
  replace (N.testbit 15 r) with true; [apply andb_true_r|].
  assert (r = 0 \/ r = 1 \/ r = 2 \/ r = 3) as [->|[->|[->| ->]]] by lia;
    reflexivity.
Qed.

Lemma String_get u i :
  (i < 32)%nat ->
  String.get (digit_position i) (uuid.String u)
  = Some (uuid.hexdigit (uuid.nibble u i)).
Proof.
  intros Hi. do 32 (destruct i as [|i]; [reflexivity|]). lia.
Qed.

Lemma String_nibbles u v :
  uuid.String u = uuid.String v ->
  forall i, (i < 32)%nat -> uuid.nibble u i = uuid.nibble v i.
Proof.
  intros Heq i Hi. apply hexdigit_inj; auto using nibble_lt.
  assert (Hsome : Some (uuid.hexdigit (uuid.nibble u i))
                  = Some (uuid.hexdigit (uuid.nibble v i))).
  { rewrite <- !String_get by exact Hi. rewrite Heq. reflexivity. }
  injection Hsome as ->. reflexivity.
Qed.

Lemma String_inj u v :
  u < 2 ^ 128 -> v < 2 ^ 128 -> uuid.String u = uuid.String v -> u = v.
Proof.
  intros Hu Hv Heq. pose proof (String_nibbles u v Heq) as Hnib.
  rewrite <- (N.mod_small u (2 ^ 128)), <- (N.mod_small v (2 ^ 128)) by assumption.
  apply N.bits_inj. intros n.
  destruct (N.lt_ge_cases n 128) as [Hlow | Hhigh].
  - rewrite !N.mod_pow2_bits_low by assumption.
    set (q := N.to_nat (n / 4)).
    assert (Hq : (q < 32)%nat).
    { subst q. assert (n / 4 < 32) by (apply N.Div0.div_lt_upper_bound; lia). lia. }
    assert (Hn : n = n mod 4 + 4 * N.of_nat (31 - (31 - q))).
    { replace (31 - (31 - q))%nat with q by lia. subst q. rewrite N2Nat.id.
      rewrite N.add_comm. apply N.div_mod. discriminate. }
    rewrite Hn.
    rewrite <- !nibble_testbit by (apply N.mod_lt; discriminate).
    rewrite (Hnib (31 - q)%nat) by lia. reflexivity.
  - rewrite !N.mod_pow2_bits_high by assumption. reflexivity.
Qed.

Lemma New_lt r : uuid.New r < 2 ^ 128.
Proof.
  assert (Hmod : uuid.New r mod 2 ^ 128 = uuid.New r).
  { apply N.bits_inj. intros n.
    destruct (N.lt_ge_cases n 128) as [Hlow | Hhigh].
    - apply N.mod_pow2_bits_low, Hlow.
    - rewrite N.mod_pow2_bits_high by assumption.
      unfold uuid.New. rewrite N.lor_spec, N.ldiff_spec.
      rewrite N.mod_pow2_bits_high by assumption.
      rewrite (N.bits_above_log2 uuid.version_bits n);
        [reflexivity|].
      change (N.log2 uuid.version_bits) with 78. lia. }
  rewrite <- Hmod. apply N.mod_lt. discriminate.
Qed.

(** X14.  The jobId and userId of the message are 36 characters long and
    tell ids apart: two jobs whose messages carry the same jobId have the
    same id, and likewise for the owners (ids being 128-bit values), so
    the worker's callback can name the job by the text it received. *)
Theorem worker_message_identifies_job j1 j2 :
  ID j1 < 2 ^ 128 -> ID j2 < 2 ^ 128 ->
  UserID j1 < 2 ^ 128 -> UserID j2 < 2 ^ 128 ->
  String.length (ResumeWorkerJob.JobID (workerJob j1)) = 36%nat /\
  String.length (ResumeWorkerJob.UserID (workerJob j1)) = 36%nat /\
  (ResumeWorkerJob.JobID (workerJob j1) = ResumeWorkerJob.JobID (workerJob j2) ->
   ID j1 = ID j2) /\
  (ResumeWorkerJob.UserID (workerJob j1) = ResumeWorkerJob.UserID (workerJob j2) ->
   UserID j1 = UserID j2).
Proof.
  intros Hi1 Hi2 Hu1 Hu2. simpl.
  split; [reflexivity|]. split; [reflexivity|].
  split; apply String_inj; assumption.
Qed.

Lemma worker_message_identifies_job_witness :
  String.length (ResumeWorkerJob.JobID (workerJob (submit_new quiet_world).1))
    = 36%nat /\
  String.length (ResumeWorkerJob.UserID (workerJob (submit_new quiet_world).1))
    = 36%nat /\
  (ResumeWorkerJob.JobID (workerJob (submit_new quiet_world).1)
   = ResumeWorkerJob.JobID (workerJob failed_job) ->
   ID (submit_new quiet_world).1 = ID failed_job) /\
  (ResumeWorkerJob.UserID (workerJob (submit_new quiet_world).1)
   = ResumeWorkerJob.UserID (workerJob failed_job) ->
   UserID (submit_new quiet_world).1 = UserID failed_job).
Proof.
  apply (worker_message_identifies_job (submit_new quiet_world).1 failed_job);
    vm_compute; reflexivity.
Defined.

Lemma small_above n a : a < 16 -> 4 <= n -> N.testbit a n = false.
Proof.
  intros Ha Hn. destruct (N.eq_dec a 0) as [-> | Hne]; [apply N.bits_0|].
  apply N.bits_above_log2.
  assert (N.log2 a < 4) by (apply N.log2_lt_pow2; lia). lia.
Qed.

Lemma New_version_nibble r : uuid.nibble (uuid.New r) 12 = 4.
Proof.
  apply N.bits_inj. intros n.
  destruct (N.lt_ge_cases n 4) as [Hlow | Hhigh].
  - rewrite nibble_testbit by assumption.
    unfold uuid.New. rewrite N.lor_spec, N.ldiff_spec.
    assert (n = 0 \/ n = 1 \/ n = 2 \/ n = 3) as [->|[->|[->| ->]]] by lia.
    + replace (N.testbit uuid.cleared_bits (0 + 4 * N.of_nat (31 - 12)))
        with true by reflexivity.
      rewrite andb_false_r. reflexivity.
    + replace (N.testbit uuid.cleared_bits (1 + 4 * N.of_nat (31 - 12)))
        with true by reflexivity.
      rewrite andb_false_r. reflexivity.
    + replace (N.testbit uuid.version_bits (2 + 4 * N.of_nat (31 - 12)))
        with true by reflexivity.
      rewrite orb_true_r. reflexivity.
    + replace (N.testbit uuid.cleared_bits (3 + 4 * N.of_nat (31 - 12)))
        with true by reflexivity.
      rewrite andb_false_r. reflexivity.
  - rewrite (small_above n (uuid.nibble (uuid.New r) 12)) by
      (auto using nibble_lt).
    symmetry. apply small_above; [reflexivity | assumption].
Qed.

(** X15.  The id [uuid.New] gives a new job is a 128-bit value that is
    never the nil UUID, and its text form shows version 4 at the
    thirteenth digit, whatever the random bytes were. *)
Theorem new_job_id_is_version_4 userID jobDescription metadata w :
  let job := (NewResumeGenerationJob userID jobDescription metadata w).1 in
  ID job < 2 ^ 128 /\ ID job <> uuid.Nil /\
  String.get 14 (uuid.String (ID job)) = Some "4"%char.
Proof.
  intros job. subst job. rewrite NewResumeGenerationJob_run. cbn [fst ID].
  split; [apply New_lt|]. split; [apply New_not_Nil|].
  change 14%nat with (digit_position 12).
  rewrite String_get by lia. rewrite New_version_nibble. reflexivity.
Qed.

(** ** Choosing the publisher at start-up *)

#[global] Instance publisherValue_frame : PublisherFrame publisherValue.
Proof.
  split; intros [p|p] job w.
  - apply (publish_rows p).
  - apply (publish_rows p).
  - apply (publish_outages p).
  - apply (publish_outages p).
Qed.

Section PublisherChoice.

Context `{TopologyCalls}.

Lemma NewRabbitMQPublisher_ok ch w p w' :
  NewRabbitMQPublisher ch w = (Ok p, w') -> channel p = Some ch.
Proof.
  unfold NewRabbitMQPublisher, bind, ret.
  destruct (ExchangeDeclare _ _ _ _ _ _ w) as [[e|] w1]; [discriminate|].
  destruct (QueueDeclare _ _ _ _ _ w1) as [[e|] w2]; [discriminate|].
  destruct (QueueBind _ _ _ _ w2) as [[e|] w3]; [discriminate|].
  intros [= <- _]. reflexivity.
Qed.

(** X16.  Start-up always ends with a publisher, and it is the RabbitMQ
    one only when there is a connection and the exchange, the queue and
    the binding were all declared; it then holds the connection's channel.
    With no connection, or when a declaration fails, the no-op publisher is
    chosen and a warning is logged; from then on a submission cannot fail
    because of the broker: it behaves as with the no-op publisher, so any
    error it returns is the store's. *)
Theorem publisher_choice (rabbitMQ : option RabbitMQConnection) (w : World) :
  let chosen := resumePublisher rabbitMQ w in
  match chosen.1 with
  | ViaRabbitMQ p =>
    exists conn, rabbitMQ = Some conn /\ channel p = Some (conn_Channel conn) /\
      (NewRabbitMQPublisher (conn_Channel conn) w).1 = Ok p
  | ViaNoOp p =>
    (rabbitMQ = None \/
     exists conn e, rabbitMQ = Some conn /\
       (NewRabbitMQPublisher (conn_Channel conn) w).1 = Err e) /\
    (exists r rest, logs chosen.2 = r :: rest /\ level r = LevelWarn) /\
    forall userID jobDescription metadata w' e,
      GenerateResume (NewService chosen.1) userID jobDescription metadata w'
      = GenerateResume (NewService p) userID jobDescription metadata w' /\
      ((GenerateResume (NewService chosen.1) userID jobDescription metadata w').1.2
         = Some e -> e = DuplicateID \/ e = PersistenceError)
  end.
Proof.
  unfold resumePublisher. destruct rabbitMQ as [conn|]; simpl.
  - unfold bind.
    destruct (NewRabbitMQPublisher (conn_Channel conn) w) as [[p|e] w1] eqn:HNew;
      simpl.
    + exists conn. split; [reflexivity|].
      split; [exact (NewRabbitMQPublisher_ok _ _ _ _ HNew)|].
      rewrite HNew. reflexivity.
    + split; [right; exists conn, e; rewrite HNew; auto|]. split; [eauto|].
      intros userID jobDescription metadata w' e'. split; [reflexivity|].
      apply (noop_submit_error_is_store_error (NewService NewNoOpPublisher)).
  - split; [left; reflexivity|]. split; [eauto|].
    intros userID jobDescription metadata w' e'. split; [reflexivity|].
    apply (noop_submit_error_is_store_error (NewService NewNoOpPublisher)).
Qed.

End PublisherChoice.

(** ** The metadata column *)

(** X17.  A nil metadata bag is written as SQL NULL, and reading NULL
    gives an empty bag that is not nil, whatever the receiver held before
    and with no error: nil does not come back as nil.  [Scan] takes NULL,
    bytes and strings; on any other driver value (an integer, a float, a
    boolean, a time) it panics instead of returning an error. *)
Theorem nil_metadata_comes_back_empty
    (marshal : gmap string json -> result string)
    (unmarshal : string -> option (gmap string json) ->
                 option (gmap string json) * option error)
    (receiver : option (gmap string json)) (v : driver_Value) :
  JSONMetadata_Value marshal None = Ok DNil /\
  JSONMetadata_Scan unmarshal receiver DNil = Returns (Some ∅, None) /\
  (JSONMetadata_Scan unmarshal receiver v = Panics <->
   v <> DNil /\ (forall b, v <> DBytes b) /\ (forall s, v <> DString s)).
Proof.
  split; [reflexivity|]. split; [reflexivity|].
  destruct v; simpl; split; try discriminate;
    try (intros _; repeat split; intros; discriminate);
    intros (Hnil & Hbytes & Hstring); try reflexivity.
  - contradiction Hnil. reflexivity.
  - contradiction (Hbytes b). reflexivity.
  - contradiction (Hstring s). reflexivity.
Qed.

(** ** Migrations *)

Lemma MigrateJobsTables_plan db :
  MigrateJobsTables db = run_plan migration_plan db.
Proof.
  unfold MigrateJobsTables, migration_plan. simpl.
  repeat match goal with
  | |- context [db_run ?st ?d] =>
    destruct (db_run st d) as [[?|] ?]; try reflexivity
  end.
Qed.

Lemma run_plan_spec plan db :
  let run := run_plan plan db in
  refuses run.2 = refuses db /\
  exists done,
    done `prefix_of` plan /\ taken run.2 = taken db ++ done /\
    (run.1 = None <-> done = plan) /\
    (forall e, run.1 = Some e ->
       exists st, plan !! length done = Some st /\
         refuses db (taken db ++ done) st = Some e).
Proof.
  revert db. induction plan as [|st rest IH]; intros db; simpl.
  - split; [reflexivity|]. exists []. split; [reflexivity|].
    split; [symmetry; apply app_nil_r|]. split; [tauto|]. discriminate.
  - unfold db_run. destruct (refuses db (taken db) st) as [e|] eqn:Hst; simpl.
    + split; [reflexivity|]. exists []. split; [apply prefix_nil|].
      split; [symmetry; apply app_nil_r|]. split; [split; discriminate|].
      intros e' [= <-]. exists st. split; [reflexivity|].
      rewrite app_nil_r. exact Hst.
    + destruct (IH {| taken := taken db ++ [st]; refuses := refuses db |})
        as (Href & done & Hprefix & Htaken & Hnone & Herr).
      simpl in *. split; [exact Href|]. exists (st :: done).
      split; [apply prefix_cons, Hprefix|].
      split; [rewrite Htaken, <- app_assoc; reflexivity|].
      split.
      * rewrite Hnone. split; [intros ->; reflexivity | intros [= ->]; reflexivity].
      * intros e He. destruct (Herr e He) as (st' & Hlook & Hrefuses).
        exists st'. split; [exact Hlook|].
        rewrite <- app_assoc in Hrefuses. exact Hrefuses.
Qed.


Lemma migration_plan_prefix db :
  exists done,
    done `prefix_of` migration_plan /\
    taken (MigrateJobsTables db).2 = taken db ++ done.
Proof.
  rewrite MigrateJobsTables_plan.
  destruct (run_plan_spec migration_plan db) as (_ & done & Hp & Ht & _).
  exists done. split; assumption.
Qed.

(** X19.  The table of generation jobs is only ever migrated after both
    extensions are enabled and the job applications are migrated: if the
    resumes statement is among those the database took in this run, so are
    the three before it; and a refusal anywhere leaves the later tables
    unmigrated by this run. *)
Theorem resumes_migrated_after_extensions db done :
  taken (MigrateJobsTables db).2 = taken db ++ done ->
  migrate_resumes ∈ done ->
  enable_uuid_ossp ∈ done /\ enable_pgcrypto ∈ done /\
  migrate_jobapplications ∈ done.
Proof.
  intros Htaken Hin.
  destruct (migration_plan_prefix db) as (done' & Hprefix & Htaken').
  rewrite Htaken' in Htaken. apply app_inv_head in Htaken. subst done'.
  destruct Hprefix as (rest & Hplan).
  unfold migration_plan in Hplan.
  destruct done as [|s1 [|s2 [|s3 [|s4 done]]]]; simpl in Hplan.
  - apply not_elem_of_nil in Hin. contradiction.
  - injection Hplan as <- _. apply list_elem_of_singleton in Hin. discriminate Hin.
  - injection Hplan as <- <- _.
    apply elem_of_cons in Hin as [Hin | Hin]; [discriminate Hin|].
    apply list_elem_of_singleton in Hin. discriminate Hin.
  - injection Hplan as <- <- <- _.
    apply elem_of_cons in Hin as [Hin | Hin]; [discriminate Hin|].
    apply elem_of_cons in Hin as [Hin | Hin]; [discriminate Hin|].
    apply list_elem_of_singleton in Hin. discriminate Hin.
  - injection Hplan as <- <- <- _.
    split; [apply list_elem_of_here|].
    split; [apply list_elem_of_further, list_elem_of_here|].
    do 2 apply list_elem_of_further. apply list_elem_of_here.
Qed.

Lemma resumes_migrated_after_extensions_witness :
  enable_uuid_ossp ∈ migration_plan /\ enable_pgcrypto ∈ migration_plan /\
  migrate_jobapplications ∈ migration_plan.
Proof.
  apply (resumes_migrated_after_extensions fresh_db migration_plan).
  - vm_compute. reflexivity.
  - unfold migration_plan. do 3 apply list_elem_of_further. apply list_elem_of_here.
Defined.

(** Without the privilege for pgcrypto the migration stops after the first
    extension and migrates no table. *)
Example migration_on_restricted_db :
  MigrateJobsTables restricted_db =
  (Some (Errorf "permission denied to create extension" None),
   {| taken := [enable_uuid_ossp]; refuses := refuses restricted_db |}).
Proof. reflexivity. Qed.

(** ** The best resume *)

Section BestResumeProperties.

Variable Resume : Type.
Variable GetMainResume GetFeaturedResume : UUID -> M (result Resume).
Variable ListResumes : UUID -> M (result (list Resume)).
Variable ErrResumeNotFound : error.

Let best := GetBestResume Resume GetMainResume GetFeaturedResume ListResumes
              ErrResumeNotFound.

(** X20.  [GetBestResume] reports an error only when the main lookup and
    then the featured lookup have both failed and the listing has failed
    too (that error is returned) or is empty (not found).  Why the main or
    the featured lookup failed is never reported: any failure there, not
    only a missing resume, makes the call fall through to the next
    source.  When it succeeds with the listing, it returns the first
    resume listed. *)
Theorem best_resume_errors userID w :
  let main := GetMainResume userID w in
  let featured := GetFeaturedResume userID main.2 in
  let listed := ListResumes userID featured.2 in
  (forall e, (best userID w).1 = Err e ->
     (exists e1, main.1 = Err e1) /\ (exists e2, featured.1 = Err e2) /\
     (listed.1 = Err e \/ (listed.1 = Ok [] /\ e = ErrResumeNotFound))) /\
  (forall r, (best userID w).1 = Ok r ->
     main.1 = Ok r \/
     ((exists e1, main.1 = Err e1) /\ featured.1 = Ok r) \/
     ((exists e1, main.1 = Err e1) /\ (exists e2, featured.1 = Err e2) /\
      exists rest, listed.1 = Ok (r :: rest))).
Proof.
  subst best. unfold GetBestResume, bind, ret. simpl.
  destruct (GetMainResume userID w) as [[r1|e1] w1]; simpl.
  { split; [discriminate|]. intros r [= <-]. left. reflexivity. }
  destruct (GetFeaturedResume userID w1) as [[r2|e2] w2]; simpl.
  { split; [discriminate|]. intros r [= <-]. right. left. eauto. }
  destruct (ListResumes userID w2) as [[[|r3 rest]|e3] w3]; simpl.
  - split; [|discriminate]. intros e [= <-]. eauto 10.
  - split; [discriminate|]. intros r [= <-]. right. right. eauto 10.
  - split; [|discriminate]. intros e [= <-]. eauto 10.
Qed.

End BestResumeProperties.

(** ** The cover letter prompt *)

Section PromptProperties.

Import jobapplications.

Lemma prefix_keep {A : Type} (b : bool) (p l : list A) (x : list A) :
  p `prefix_of` l -> p `prefix_of` (if b then l ++ x else l).
Proof. intros Hp. destruct b; [apply prefix_app_r|]; exact Hp. Qed.

Lemma length_keep {A : Type} (b : bool) (l x : list A) :
  length (if b then l ++ x else l) = (length l + if b then length x else 0)%nat.
Proof. destruct b; [apply length_app | lia]. Qed.

Lemma prefix_keep2 {A : Type} (b : bool) (p l x y : list A) :
  p `prefix_of` l -> p `prefix_of` (if b then (l ++ x) ++ y else l).
Proof. intros Hp. destruct b; [do 2 apply prefix_app_r|]; exact Hp. Qed.

Lemma length_keep2 {A : Type} (b : bool) (l x y : list A) :
  length (if b then (l ++ x) ++ y else l)
  = (length l + if b then length x + length y else 0)%nat.
Proof. destruct b; [rewrite !length_app|]; lia. Qed.

Variables Project Post TechnicalWriting : Type.

(** X21.  Whatever the profile, the job and the context, the prompt is
    built from a list that opens with the heading, the company and the
    position, closes with the instructions heading and the instruction,
    and has in between the profile heading and one entry for each optional
    field that is not empty (two for a non-empty context): six entries
    plus the optional ones, so between six and seventeen. *)
Theorem prompt_shape (profile : UserProfile Project Post TechnicalWriting)
    (job : JobInfo) (additionalContext : string) :
  let parts := buildUserInput_parts profile job additionalContext in
  ["## Job Application Details"; "Company: " +:+ CompanyName job;
   "Position: " +:+ JobTitle job] `prefix_of` parts /\
  [LF +:+ "## Instructions";
   "Please write a compelling, personalized cover letter for this job application. Make it specific, professional, and engaging."]
    `suffix_of` parts /\
  length parts = (6 + optional_parts profile job additionalContext)%nat /\
  (6 <= length parts <= 17)%nat /\
  buildUserInput profile job additionalContext = strings_Join parts LF.
Proof.
  intros parts. subst parts.
  assert (Hlen : length (buildUserInput_parts profile job additionalContext)
                 = (6 + optional_parts profile job additionalContext)%nat).
  { unfold buildUserInput_parts, optional_parts. cbv zeta.
    rewrite !length_app, length_keep2, !length_keep, !length_app,
      !length_keep, !length_app.
    simpl.
    repeat match goal with |- context [if ?b then _ else _] => destruct b end;
      reflexivity. }
  split; [|split; [|split; [exact Hlen | split; [|reflexivity]]]].
  - unfold buildUserInput_parts. cbv zeta.
    do 2 apply prefix_app_r. apply prefix_keep2.
    do 6 apply prefix_keep. apply prefix_app_r. do 3 apply prefix_keep.
    reflexivity.
  - unfold buildUserInput_parts. cbv zeta. rewrite <- app_assoc.
    apply suffix_app_r. reflexivity.
  - rewrite Hlen. unfold optional_parts.
    repeat match goal with |- context [if ?b then _ else _] => destruct b end;
      simpl; lia.
Qed.

(** X22.  Of the projects, posts and technical writings of a profile the
    prompt shows their number and nothing else: two profiles with the same
    skills, certifications and interests and with as many projects, posts
    and writings give the same prompt, whatever those items are. *)
Theorem prompt_shows_counts_only
    (Project' Post' TechnicalWriting' : Type)
    (p1 : UserProfile Project Post TechnicalWriting)
    (p2 : UserProfile Project' Post' TechnicalWriting')
    (job : JobInfo) (additionalContext : string) :
  Skills p1 = Skills p2 -> Certifications p1 = Certifications p2 ->
  Interests p1 = Interests p2 ->
  length (Projects p1) = length (Projects p2) ->
  length (Posts p1) = length (Posts p2) ->
  length (TechnicalWritings p1) = length (TechnicalWritings p2) ->
  buildUserInput p1 job additionalContext = buildUserInput p2 job additionalContext.
Proof.
  intros Hs Hc Hi Hpr Hpo Htw.
  unfold buildUserInput, buildUserInput_parts, has_items.
  rewrite Hs, Hc, Hi, Hpr, Hpo, Htw. reflexivity.
Qed.

End PromptProperties.

Lemma prompt_shows_counts_only_witness :
  jobapplications.buildUserInput
    {| jobapplications.Skills := ["Go"; "SQL"]; jobapplications.Certifications := [];
       jobapplications.Interests := ["chess"];
       jobapplications.Projects := ["a scheduler"; "a parser"];
       jobapplications.Posts := ["on queues"];
       jobapplications.TechnicalWritings := ([] : list string) |}
    {| jobapplications.CompanyName := "Acme"; jobapplications.JobTitle := "Engineer";
       jobapplications.Location := ""; jobapplications.JobDescription := "Build things";
       jobapplications.Requirements := ["Go"] |}
    "" =
  jobapplications.buildUserInput
    {| jobapplications.Skills := ["Go"; "SQL"]; jobapplications.Certifications := [];
       jobapplications.Interests := ["chess"];
       jobapplications.Projects := [1%nat; 2%nat];
       jobapplications.Posts := [true];
       jobapplications.TechnicalWritings := ([] : list unit) |}
    {| jobapplications.CompanyName := "Acme"; jobapplications.JobTitle := "Engineer";
       jobapplications.Location := ""; jobapplications.JobDescription := "Build things";
       jobapplications.Requirements := ["Go"] |}
    "".
Proof.
  apply prompt_shows_counts_only; reflexivity.
Defined.
